(** * zitadel-go [pkg/client]: the lazily populated service-client registry
      and the construction path ([New], [newConnection]).

    The development embeds [src/pkg/client/client.go]:
    - [clientOptions], [Option], [WithAuth], [WithGRPCDialOptions];
    - [New] and [newConnection], over a world that records every call made
      to a collaborator (token-source initializer, transport credentials,
      dial) in the order the code makes them;
    - [clientOnce], [Client] and the fourteen accessors, over a world that
      also hands out the addresses of freshly allocated stubs. *)

From Stdlib Require Import List String Bool Arith Lia.
From Stdlib Require Import ZArith.
Import ListNotations.
Open Scope string_scope.
Open Scope list_scope.

Set Implicit Arguments.

(** ** Collaborators of the package *)

(** [context.Context]: an opaque handle. *)
Definition Context := nat.

(** A non-nil Go [error] value. A nil-able [error] is an [option error]. *)
Inductive error : Type := mkError (msg : string).

(** [oauth2.TokenSource], represented by what its [Token] method answers:
    an access token or an error. *)
Record TokenSource : Type := { Token : string + error }.

(** [TokenSourceInitializer]: [func(ctx, issuer) (oauth2.TokenSource, error)].
    Both results are nil-able and independent of one another. *)
Definition TokenSourceInitializer : Type :=
  Context -> string -> option TokenSource * option error.

(** [*zitadel.Zitadel], seen through the five getters that this package
    calls on it. *)
Record Zitadel : Type := {
  Origin : string;
  Domain : string;
  Host : string;
  IsTLS : bool;
  IsInsecureSkipVerifyTLS : bool
}.

(** [credentials.TransportCredentials]: opaque. *)
Inductive TransportCredentials : Type := mkTransportCredentials (id : nat).

(** [*grpc.ClientConn]: the address of the connection object. *)
Inductive ClientConn : Type := clientConn (addr : nat).

(** The struct behind the per-RPC credential injector; [newConnection]
    builds it as [&cred{tls: ..., tokenSource: ...}]. *)
Record cred : Type := {
  tls : bool;
  tokenSource : option TokenSource
}.

(** [grpc.DialOption]: the two options [newConnection] installs itself, and
    any other option of the transport library. *)
Inductive DialOption : Type :=
| WithTransportCredentials (creds : option TransportCredentials)
| WithPerRPCCredentials (c : cred)
| OtherDialOption (id : nat).

(** Modelled from the spec: the method [RequireTransportSecurity] of [cred],
    whose definition is not part of the available sources. The spec says it
    returns true when TLS was enabled at construction, false otherwise. *)
Definition RequireTransportSecurity (c : cred) : bool := tls c.

(** Modelled from the spec: the method [GetRequestMetadata] of [cred], whose
    definition is not part of the available sources. With a token source it
    fetches the current token and attaches it as a bearer-style
    [authorization] header, failing when the source cannot produce a token;
    without a token source it attaches no authorization header. The outbound
    metadata is a list of header/value pairs. *)
Definition GetRequestMetadata (c : cred) : list (string * string) * option error :=
  match tokenSource c with
  | None => ([], None)
  | Some ts =>
      match Token ts with
      | inl tok => ([("authorization", ("Bearer " ++ tok)%string)], None)
      | inr e => ([], Some e)
      end
  end.


(** ** Client options *)

Record clientOptions : Type := {
  initTokenSource : option TokenSourceInitializer;
  grpcDialOptions : list DialOption
}.

(** [Option]: a function that mutates the options through a pointer; the
    options value is threaded through instead. *)
Definition Option : Type := clientOptions -> clientOptions.

Definition WithAuth (init : option TokenSourceInitializer) : Option :=
  fun c => {| initTokenSource := init;
              grpcDialOptions := grpcDialOptions c |}.

Definition WithGRPCDialOptions (opts : list DialOption) : Option :=
  fun c => {| initTokenSource := initTokenSource c;
              grpcDialOptions := grpcDialOptions c ++ opts |}.

(** [var options clientOptions]: the zero value. *)
Definition zeroOptions : clientOptions :=
  {| initTokenSource := None; grpcDialOptions := [] |}.

(** [for _, o := range opts { o(&options) }], from a given options value. *)
Definition applyTo (options : clientOptions) (opts : list Option) : clientOptions :=
  fold_left (fun c o => o c) opts options.

Definition applyOptions (opts : list Option) : clientOptions :=
  applyTo zeroOptions opts.

(** ** The world of a run *)

(** The fourteen logical services, one per slot of the registry, in the
    order of the fields of [Client]. *)
Inductive Service : Type :=
| System | Admin | Management
| User | UserV2 | Auth
| Settings | SettingsV2
| Session | SessionV2
| Organization | OrganizationV2
| OIDC | OIDCV2.

(** A service stub: the generated [&xServiceClient{cc}], identified by the
    address of the allocated struct. *)
Record Stub : Type := {
  stub_service : Service;
  stub_cc : option ClientConn;
  stub_addr : nat
}.

(** What the package asks of its collaborators, in program order. *)
Inductive Event : Type :=
| InitTokenSourceCalled (ctx : Context) (issuer : string)
| TransportCredentialsCalled (domain : string) (isTLS insecure : bool)
| DialContextCalled (ctx : Context) (target : string) (opts : list DialOption)
| StubConstructed (s : Service) (cc : option ClientConn) (addr : nat).

Record World : Type := {
  next_addr : nat;
  trace : list Event
}.

Definition log (e : Event) (w : World) : World :=
  {| next_addr := next_addr w; trace := trace w ++ [e] |}.

(** State passing over the world, for the construction path. *)
Definition IO (A : Type) : Type := World -> A * World.

Definition ret {A} (a : A) : IO A := fun w => (a, w).

Definition bind {A B} (m : IO A) (k : A -> IO B) : IO B :=
  fun w => let (a, w') := m w in k a w'.

Declare Scope io_scope.
Delimit Scope io_scope with io.
Notation "x <- m ;; k" := (bind m (fun x => k))
  (at level 61, m at next level, right associativity) : io_scope.
Notation "' pat <- m ;; k" := (bind m (fun x => match x with pat => k end))
  (at level 61, pat pattern, m at next level, right associativity) : io_scope.

(** A call to a collaborator: the call is recorded, then answered. *)
Definition call {A} (e : Event) (answer : A) : IO A :=
  fun w => (answer, log e w).

(** The transport layer below the package: [transportCredentials] (of this
    package, but not part of the available sources) and
    [grpc.DialContext]. *)
Class Transport : Type := {
  transportCredentials :
    string -> bool -> bool -> option TransportCredentials * option error;
  DialContext :
    Context -> string -> list DialOption -> option ClientConn * option error
}.

(** ** The registry: [clientOnce] and [Client] *)

(** [sync.Once], read sequentially: the [done] flag. *)
Record Once : Type := { done : bool }.

(** The zero value of [sync.Once] and a guard that has fired. *)
Definition fresh : Once := {| done := false |}.
Definition fired : Once := {| done := true |}.

Module clientOnce.

Record t : Type := mk {
  systemService : Once;
  adminService : Once;
  managementService : Once;
  userService : Once;
  userServiceV2 : Once;
  authService : Once;
  settingsService : Once;
  settingsServiceV2 : Once;
  sessionService : Once;
  sessionServiceV2 : Once;
  organizationService : Once;
  organizationServiceV2 : Once;
  oidcService : Once;
  oidcServiceV2 : Once
}.

Definition zero : t :=
  mk fresh fresh fresh fresh fresh fresh fresh fresh fresh fresh fresh fresh
     fresh fresh.

Definition set_systemService (v : Once) (o : t) : t :=
  mk v (adminService o) (managementService o) (userService o)
     (userServiceV2 o) (authService o) (settingsService o)
     (settingsServiceV2 o) (sessionService o) (sessionServiceV2 o)
     (organizationService o) (organizationServiceV2 o) (oidcService o)
     (oidcServiceV2 o).

Definition set_adminService (v : Once) (o : t) : t :=
  mk (systemService o) v (managementService o) (userService o)
     (userServiceV2 o) (authService o) (settingsService o)
     (settingsServiceV2 o) (sessionService o) (sessionServiceV2 o)
     (organizationService o) (organizationServiceV2 o) (oidcService o)
     (oidcServiceV2 o).

Definition set_managementService (v : Once) (o : t) : t :=
  mk (systemService o) (adminService o) v (userService o) (userServiceV2 o)
     (authService o) (settingsService o) (settingsServiceV2 o)
     (sessionService o) (sessionServiceV2 o) (organizationService o)
     (organizationServiceV2 o) (oidcService o) (oidcServiceV2 o).

Definition set_userService (v : Once) (o : t) : t :=
  mk (systemService o) (adminService o) (managementService o) v
     (userServiceV2 o) (authService o) (settingsService o)
     (settingsServiceV2 o) (sessionService o) (sessionServiceV2 o)
     (organizationService o) (organizationServiceV2 o) (oidcService o)
     (oidcServiceV2 o).

Definition set_userServiceV2 (v : Once) (o : t) : t :=
  mk (systemService o) (adminService o) (managementService o)
     (userService o) v (authService o) (settingsService o)
     (settingsServiceV2 o) (sessionService o) (sessionServiceV2 o)
     (organizationService o) (organizationServiceV2 o) (oidcService o)
     (oidcServiceV2 o).

Definition set_authService (v : Once) (o : t) : t :=
  mk (systemService o) (adminService o) (managementService o)
     (userService o) (userServiceV2 o) v (settingsService o)
     (settingsServiceV2 o) (sessionService o) (sessionServiceV2 o)
     (organizationService o) (organizationServiceV2 o) (oidcService o)
     (oidcServiceV2 o).

Definition set_settingsService (v : Once) (o : t) : t :=
  mk (systemService o) (adminService o) (managementService o)
     (userService o) (userServiceV2 o) (authService o) v
     (settingsServiceV2 o) (sessionService o) (sessionServiceV2 o)
     (organizationService o) (organizationServiceV2 o) (oidcService o)
     (oidcServiceV2 o).

Definition set_settingsServiceV2 (v : Once) (o : t) : t :=
  mk (systemService o) (adminService o) (managementService o)
     (userService o) (userServiceV2 o) (authService o) (settingsService o) v
     (sessionService o) (sessionServiceV2 o) (organizationService o)
     (organizationServiceV2 o) (oidcService o) (oidcServiceV2 o).

Definition set_sessionService (v : Once) (o : t) : t :=
  mk (systemService o) (adminService o) (managementService o)
     (userService o) (userServiceV2 o) (authService o) (settingsService o)
     (settingsServiceV2 o) v (sessionServiceV2 o) (organizationService o)
     (organizationServiceV2 o) (oidcService o) (oidcServiceV2 o).

Definition set_sessionServiceV2 (v : Once) (o : t) : t :=
  mk (systemService o) (adminService o) (managementService o)
     (userService o) (userServiceV2 o) (authService o) (settingsService o)
     (settingsServiceV2 o) (sessionService o) v (organizationService o)
     (organizationServiceV2 o) (oidcService o) (oidcServiceV2 o).

Definition set_organizationService (v : Once) (o : t) : t :=
  mk (systemService o) (adminService o) (managementService o)
     (userService o) (userServiceV2 o) (authService o) (settingsService o)
     (settingsServiceV2 o) (sessionService o) (sessionServiceV2 o) v
     (organizationServiceV2 o) (oidcService o) (oidcServiceV2 o).

Definition set_organizationServiceV2 (v : Once) (o : t) : t :=
  mk (systemService o) (adminService o) (managementService o)
     (userService o) (userServiceV2 o) (authService o) (settingsService o)
     (settingsServiceV2 o) (sessionService o) (sessionServiceV2 o)
     (organizationService o) v (oidcService o) (oidcServiceV2 o).

Definition set_oidcService (v : Once) (o : t) : t :=
  mk (systemService o) (adminService o) (managementService o)
     (userService o) (userServiceV2 o) (authService o) (settingsService o)
     (settingsServiceV2 o) (sessionService o) (sessionServiceV2 o)
     (organizationService o) (organizationServiceV2 o) v (oidcServiceV2 o).

Definition set_oidcServiceV2 (v : Once) (o : t) : t :=
  mk (systemService o) (adminService o) (managementService o)
     (userService o) (userServiceV2 o) (authService o) (settingsService o)
     (settingsServiceV2 o) (sessionService o) (sessionServiceV2 o)
     (organizationService o) (organizationServiceV2 o) (oidcService o) v.

End clientOnce.

Record Client : Type := mkClient {
  connection : option ClientConn;
  once : clientOnce.t;
  systemService : option Stub;
  adminService : option Stub;
  managementService : option Stub;
  userService : option Stub;
  userServiceV2 : option Stub;
  authService : option Stub;
  settingsService : option Stub;
  settingsServiceV2 : option Stub;
  sessionService : option Stub;
  sessionServiceV2 : option Stub;
  organizationService : option Stub;
  organizationServiceV2 : option Stub;
  oidcService : option Stub;
  oidcServiceV2 : option Stub
}.

Definition set_once (v : clientOnce.t) (c : Client) : Client :=
  mkClient (connection c) v (systemService c) (adminService c)
     (managementService c) (userService c) (userServiceV2 c) (authService c)
     (settingsService c) (settingsServiceV2 c) (sessionService c)
     (sessionServiceV2 c) (organizationService c) (organizationServiceV2 c)
     (oidcService c) (oidcServiceV2 c).

Definition set_systemService (v : option Stub) (c : Client) : Client :=
  mkClient (connection c) (once c) v (adminService c) (managementService c)
     (userService c) (userServiceV2 c) (authService c) (settingsService c)
     (settingsServiceV2 c) (sessionService c) (sessionServiceV2 c)
     (organizationService c) (organizationServiceV2 c) (oidcService c)
     (oidcServiceV2 c).

Definition set_adminService (v : option Stub) (c : Client) : Client :=
  mkClient (connection c) (once c) (systemService c) v (managementService c)
     (userService c) (userServiceV2 c) (authService c) (settingsService c)
     (settingsServiceV2 c) (sessionService c) (sessionServiceV2 c)
     (organizationService c) (organizationServiceV2 c) (oidcService c)
     (oidcServiceV2 c).

Definition set_managementService (v : option Stub) (c : Client) : Client :=
  mkClient (connection c) (once c) (systemService c) (adminService c) v
     (userService c) (userServiceV2 c) (authService c) (settingsService c)
     (settingsServiceV2 c) (sessionService c) (sessionServiceV2 c)
     (organizationService c) (organizationServiceV2 c) (oidcService c)
     (oidcServiceV2 c).

Definition set_userService (v : option Stub) (c : Client) : Client :=
  mkClient (connection c) (once c) (systemService c) (adminService c)
     (managementService c) v (userServiceV2 c) (authService c)
     (settingsService c) (settingsServiceV2 c) (sessionService c)
     (sessionServiceV2 c) (organizationService c) (organizationServiceV2 c)
     (oidcService c) (oidcServiceV2 c).

Definition set_userServiceV2 (v : option Stub) (c : Client) : Client :=
  mkClient (connection c) (once c) (systemService c) (adminService c)
     (managementService c) (userService c) v (authService c)
     (settingsService c) (settingsServiceV2 c) (sessionService c)
     (sessionServiceV2 c) (organizationService c) (organizationServiceV2 c)
     (oidcService c) (oidcServiceV2 c).

Definition set_authService (v : option Stub) (c : Client) : Client :=
  mkClient (connection c) (once c) (systemService c) (adminService c)
     (managementService c) (userService c) (userServiceV2 c) v
     (settingsService c) (settingsServiceV2 c) (sessionService c)
     (sessionServiceV2 c) (organizationService c) (organizationServiceV2 c)
     (oidcService c) (oidcServiceV2 c).

Definition set_settingsService (v : option Stub) (c : Client) : Client :=
  mkClient (connection c) (once c) (systemService c) (adminService c)
     (managementService c) (userService c) (userServiceV2 c) (authService c)
     v (settingsServiceV2 c) (sessionService c) (sessionServiceV2 c)
     (organizationService c) (organizationServiceV2 c) (oidcService c)
     (oidcServiceV2 c).

Definition set_settingsServiceV2 (v : option Stub) (c : Client) : Client :=
  mkClient (connection c) (once c) (systemService c) (adminService c)
     (managementService c) (userService c) (userServiceV2 c) (authService c)
     (settingsService c) v (sessionService c) (sessionServiceV2 c)
     (organizationService c) (organizationServiceV2 c) (oidcService c)
     (oidcServiceV2 c).

Definition set_sessionService (v : option Stub) (c : Client) : Client :=
  mkClient (connection c) (once c) (systemService c) (adminService c)
     (managementService c) (userService c) (userServiceV2 c) (authService c)
     (settingsService c) (settingsServiceV2 c) v (sessionServiceV2 c)
     (organizationService c) (organizationServiceV2 c) (oidcService c)
     (oidcServiceV2 c).

Definition set_sessionServiceV2 (v : option Stub) (c : Client) : Client :=
  mkClient (connection c) (once c) (systemService c) (adminService c)
     (managementService c) (userService c) (userServiceV2 c) (authService c)
     (settingsService c) (settingsServiceV2 c) (sessionService c) v
     (organizationService c) (organizationServiceV2 c) (oidcService c)
     (oidcServiceV2 c).

Definition set_organizationService (v : option Stub) (c : Client) : Client :=
  mkClient (connection c) (once c) (systemService c) (adminService c)
     (managementService c) (userService c) (userServiceV2 c) (authService c)
     (settingsService c) (settingsServiceV2 c) (sessionService c)
     (sessionServiceV2 c) v (organizationServiceV2 c) (oidcService c)
     (oidcServiceV2 c).

Definition set_organizationServiceV2 (v : option Stub) (c : Client) : Client :=
  mkClient (connection c) (once c) (systemService c) (adminService c)
     (managementService c) (userService c) (userServiceV2 c) (authService c)
     (settingsService c) (settingsServiceV2 c) (sessionService c)
     (sessionServiceV2 c) (organizationService c) v (oidcService c)
     (oidcServiceV2 c).

Definition set_oidcService (v : option Stub) (c : Client) : Client :=
  mkClient (connection c) (once c) (systemService c) (adminService c)
     (managementService c) (userService c) (userServiceV2 c) (authService c)
     (settingsService c) (settingsServiceV2 c) (sessionService c)
     (sessionServiceV2 c) (organizationService c) (organizationServiceV2 c)
     v (oidcServiceV2 c).

Definition set_oidcServiceV2 (v : option Stub) (c : Client) : Client :=
  mkClient (connection c) (once c) (systemService c) (adminService c)
     (managementService c) (userService c) (userServiceV2 c) (authService c)
     (settingsService c) (settingsServiceV2 c) (sessionService c)
     (sessionServiceV2 c) (organizationService c) (organizationServiceV2 c)
     (oidcService c) v.

(** [&Client{connection: conn}]: every other field has its zero value. *)
Definition newClient (conn : option ClientConn) : Client :=
  mkClient conn clientOnce.zero None None None None None None None None None
     None None None None None.

(** The slot of a service and its guard, by service. *)
Definition slot (s : Service) : Client -> option Stub :=
  match s with
  | System => systemService
  | Admin => adminService
  | Management => managementService
  | User => userService
  | UserV2 => userServiceV2
  | Auth => authService
  | Settings => settingsService
  | SettingsV2 => settingsServiceV2
  | Session => sessionService
  | SessionV2 => sessionServiceV2
  | Organization => organizationService
  | OrganizationV2 => organizationServiceV2
  | OIDC => oidcService
  | OIDCV2 => oidcServiceV2
  end.

Definition guard (s : Service) (c : Client) : Once :=
  match s with
  | System => clientOnce.systemService (once c)
  | Admin => clientOnce.adminService (once c)
  | Management => clientOnce.managementService (once c)
  | User => clientOnce.userService (once c)
  | UserV2 => clientOnce.userServiceV2 (once c)
  | Auth => clientOnce.authService (once c)
  | Settings => clientOnce.settingsService (once c)
  | SettingsV2 => clientOnce.settingsServiceV2 (once c)
  | Session => clientOnce.sessionService (once c)
  | SessionV2 => clientOnce.sessionServiceV2 (once c)
  | Organization => clientOnce.organizationService (once c)
  | OrganizationV2 => clientOnce.organizationServiceV2 (once c)
  | OIDC => clientOnce.oidcService (once c)
  | OIDCV2 => clientOnce.oidcServiceV2 (once c)
  end.

(** ** Construction: [New] and [newConnection] *)

Section Construction.

Context {transport : Transport}.

Open Scope io_scope.

Definition newConnection (ctx : Context) (zitadel : Zitadel)
    (tokenSource : option TokenSource) (opts : list DialOption)
  : IO (option ClientConn * option error) :=
  '(transportCreds, err) <-
     call (TransportCredentialsCalled (Domain zitadel) (IsTLS zitadel)
             (IsInsecureSkipVerifyTLS zitadel))
          (transportCredentials (Domain zitadel) (IsTLS zitadel)
             (IsInsecureSkipVerifyTLS zitadel)) ;;
  match err with
  | Some e => ret (None, Some e)
  | None =>
      let dialOptions :=
        [ WithTransportCredentials transportCreds;
          WithPerRPCCredentials
            {| tls := IsTLS zitadel; tokenSource := tokenSource |} ] in
      let dialOptions := dialOptions ++ opts in
      call (DialContextCalled ctx (Host zitadel) dialOptions)
           (DialContext ctx (Host zitadel) dialOptions)
  end.

Definition New (ctx : Context) (zitadel : Zitadel) (opts : list Option)
  : IO (option Client * option error) :=
  let options := applyOptions opts in
  (* the part of the body after the token source is settled *)
  let connect (source : option TokenSource) :=
    '(conn, err) <-
       newConnection ctx zitadel source (grpcDialOptions options) ;;
    match err with
    | Some e => ret (None, Some e)
    | None => ret (Some (newClient conn), None)
    end in
  match initTokenSource options with
  | Some init =>
      '(source, err) <-
         call (InitTokenSourceCalled ctx (Origin zitadel))
              (init ctx (Origin zitadel)) ;;
      match err with
      | Some e => ret (None, Some e)
      | None => connect source
      end
  | None => connect None
  end.

End Construction.

Arguments newConnection : simpl never.

(** ** The accessors *)

(** How a call ends: it returns, or it panics. *)
Inductive outcome (A : Type) : Type :=
| Returned (a : A)
| Panicked.

Arguments Panicked {A}.

(** A method on [*Client]: it reads and writes the client and the world. *)
Definition Method (A : Type) : Type :=
  Client -> World -> outcome A * Client * World.

Definition mret {A} (a : A) : Method A := fun c w => (Returned a, c, w).

Definition mbind {A B} (m : Method A) (k : A -> Method B) : Method B :=
  fun c w =>
    match m c w with
    | (Returned a, c', w') => k a c' w'
    | (Panicked, c', w') => (Panicked, c', w')
    end.

Declare Scope method_scope.
Delimit Scope method_scope with method.
Notation "x <- m ;; k" := (mbind m (fun x => k))
  (at level 61, m at next level, right associativity) : method_scope.
Notation "m ;; k" := (mbind m (fun _ => k))
  (at level 61, right associativity) : method_scope.

(** Reading a field of the receiver, and assigning to one. *)
Definition read {A} (field : Client -> A) : Method A :=
  fun c w => (Returned (field c), c, w).

Definition assign {A} (set : A -> Client -> Client) (v : A) : Method unit :=
  fun c w => (Returned tt, set v c, w).

(** The generated constructors of the service stubs, one per service: each
    takes the connection and may allocate. *)
Class StubLibrary : Type := {
  NewServiceClient :
    Service -> option ClientConn -> World -> outcome Stub * World
}.

(** The stub allocated in world [w] for service [s] on connection [cc]. *)
Definition newStub (s : Service) (cc : option ClientConn) (w : World) : Stub :=
  {| stub_service := s; stub_cc := cc; stub_addr := next_addr w |}.

(** Modelled from the spec: the generated constructors [NewXServiceClient],
    which are not part of the available sources. Construction is a
    lightweight bind of a new stub to the connection and cannot fail. *)
Definition bindStub (s : Service) (cc : option ClientConn) (w : World)
  : outcome Stub * World :=
  (Returned (newStub s cc w),
   {| next_addr := S (next_addr w);
      trace := trace w ++ [StubConstructed s cc (next_addr w)] |}).

Definition generated : StubLibrary := {| NewServiceClient := bindStub |}.

Section Accessors.

Context {stubs : StubLibrary}.

Open Scope method_scope.

(** A call of a stub constructor from a method. *)
Definition construct (s : Service) (cc : option ClientConn) : Method Stub :=
  fun c w => let (r, w') := NewServiceClient s cc w in (r, c, w').

(** [sync.Once.Do], read sequentially, on one guard of [c.once]: [f] runs
    when the guard has not fired, and the guard fires when [f] is over,
    also when [f] panics. *)
Definition Do (get : clientOnce.t -> Once)
    (set : Once -> clientOnce.t -> clientOnce.t) (f : Method unit)
  : Method unit :=
  fun c w =>
    if done (get (once c)) then (Returned tt, c, w)
    else
      match f c w with
      | (r, c', w') => (r, set_once (set fired (once c')) c', w')
      end.

Definition SystemService : Method (option Stub) :=
  Do clientOnce.systemService clientOnce.set_systemService
     (cc <- read connection ;;
      stub <- construct System cc ;;
      assign set_systemService (Some stub)) ;;
  read systemService.

Definition AdminService : Method (option Stub) :=
  Do clientOnce.adminService clientOnce.set_adminService
     (cc <- read connection ;;
      stub <- construct Admin cc ;;
      assign set_adminService (Some stub)) ;;
  read adminService.

Definition ManagementService : Method (option Stub) :=
  Do clientOnce.managementService clientOnce.set_managementService
     (cc <- read connection ;;
      stub <- construct Management cc ;;
      assign set_managementService (Some stub)) ;;
  read managementService.

Definition AuthService : Method (option Stub) :=
  Do clientOnce.authService clientOnce.set_authService
     (cc <- read connection ;;
      stub <- construct Auth cc ;;
      assign set_authService (Some stub)) ;;
  read authService.

Definition UserService : Method (option Stub) :=
  Do clientOnce.userService clientOnce.set_userService
     (cc <- read connection ;;
      stub <- construct User cc ;;
      assign set_userService (Some stub)) ;;
  read userService.

Definition UserServiceV2 : Method (option Stub) :=
  Do clientOnce.userServiceV2 clientOnce.set_userServiceV2
     (cc <- read connection ;;
      stub <- construct UserV2 cc ;;
      assign set_userServiceV2 (Some stub)) ;;
  read userServiceV2.

Definition SettingsService : Method (option Stub) :=
  Do clientOnce.settingsService clientOnce.set_settingsService
     (cc <- read connection ;;
      stub <- construct Settings cc ;;
      assign set_settingsService (Some stub)) ;;
  read settingsService.

Definition SettingsServiceV2 : Method (option Stub) :=
  Do clientOnce.settingsServiceV2 clientOnce.set_settingsServiceV2
     (cc <- read connection ;;
      stub <- construct SettingsV2 cc ;;
      assign set_settingsServiceV2 (Some stub)) ;;
  read settingsServiceV2.

Definition SessionService : Method (option Stub) :=
  Do clientOnce.sessionService clientOnce.set_sessionService
     (cc <- read connection ;;
      stub <- construct Session cc ;;
      assign set_sessionService (Some stub)) ;;
  read sessionService.

Definition SessionServiceV2 : Method (option Stub) :=
  Do clientOnce.sessionServiceV2 clientOnce.set_sessionServiceV2
     (cc <- read connection ;;
      stub <- construct SessionV2 cc ;;
      assign set_sessionServiceV2 (Some stub)) ;;
  read sessionServiceV2.

Definition OIDCService : Method (option Stub) :=
  Do clientOnce.oidcService clientOnce.set_oidcService
     (cc <- read connection ;;
      stub <- construct OIDC cc ;;
      assign set_oidcService (Some stub)) ;;
  read oidcService.

Definition OIDCServiceV2 : Method (option Stub) :=
  Do clientOnce.oidcServiceV2 clientOnce.set_oidcServiceV2
     (cc <- read connection ;;
      stub <- construct OIDCV2 cc ;;
      assign set_oidcServiceV2 (Some stub)) ;;
  read oidcServiceV2.

Definition OrganizationService : Method (option Stub) :=
  Do clientOnce.organizationService clientOnce.set_organizationService
     (cc <- read connection ;;
      stub <- construct Organization cc ;;
      assign set_organizationService (Some stub)) ;;
  read organizationService.

Definition OrganizationServiceV2 : Method (option Stub) :=
  Do clientOnce.organizationServiceV2 clientOnce.set_organizationServiceV2
     (cc <- read connection ;;
      stub <- construct OrganizationV2 cc ;;
      assign set_organizationServiceV2 (Some stub)) ;;
  read organizationServiceV2.

(** The accessor of a service. *)
Definition access (s : Service) : Method (option Stub) :=
  match s with
  | System => SystemService
  | Admin => AdminService
  | Management => ManagementService
  | User => UserService
  | UserV2 => UserServiceV2
  | Auth => AuthService
  | Settings => SettingsService
  | SettingsV2 => SettingsServiceV2
  | Session => SessionService
  | SessionV2 => SessionServiceV2
  | Organization => OrganizationService
  | OrganizationV2 => OrganizationServiceV2
  | OIDC => OIDCService
  | OIDCV2 => OIDCServiceV2
  end.

(** A sequence of accessor calls on one client, each result kept. A panic
    is taken to be recovered by the caller, who goes on with the next
    call. *)
Fixpoint accesses (l : list Service) (c : Client) (w : World)
  : list (outcome (option Stub)) * Client * World :=
  match l with
  | [] => ([], c, w)
  | s :: l' =>
      match access s c w with
      | (r, c', w') =>
          match accesses l' c' w' with
          | (rs, c'', w'') => (r :: rs, c'', w'')
          end
      end
  end.

End Accessors.

(** ** Observing a run *)

(** A run from the world in which nothing has happened yet. *)
Definition emptyWorld : World := {| next_addr := 0; trace := [] |}.

Definition result {A} (m : IO A) : A := fst (m emptyWorld).

Definition events {A} (m : IO A) : list Event := trace (snd (m emptyWorld)).

(** The world [w] after the events [es]. *)
Definition after (w : World) (es : list Event) : World :=
  {| next_addr := next_addr w; trace := trace w ++ es |}.

Definition is_init (e : Event) : bool :=
  match e with InitTokenSourceCalled _ _ => true | _ => false end.

Definition is_dial (e : Event) : bool :=
  match e with DialContextCalled _ _ _ => true | _ => false end.

(** How many times the token-source initializer was invoked. *)
Definition initializations (es : list Event) : nat :=
  List.length (filter is_init es).

(** The per-RPC credential injector that a dial installs: [newConnection]
    puts it second in the dial options. *)
Definition injector (e : Event) : option cred :=
  match e with
  | DialContextCalled _ _ (_ :: WithPerRPCCredentials c :: _) => Some c
  | _ => None
  end.

(** The options a dial was given. *)
Definition dialled (e : Event) : option (list DialOption) :=
  match e with
  | DialContextCalled _ _ opts => Some opts
  | _ => None
  end.

Definition Service_eqb (a b : Service) : bool :=
  match a, b with
  | System, System | Admin, Admin | Management, Management
  | User, User | UserV2, UserV2 | Auth, Auth
  | Settings, Settings | SettingsV2, SettingsV2
  | Session, Session | SessionV2, SessionV2
  | Organization, Organization | OrganizationV2, OrganizationV2
  | OIDC, OIDC | OIDCV2, OIDCV2 => true
  | _, _ => false
  end.

(** How many stubs of service [s] were constructed. *)
Fixpoint constructions (s : Service) (es : list Event) : nat :=
  match es with
  | [] => 0
  | StubConstructed s' _ _ :: es' =>
      (if Service_eqb s s' then 1 else 0) + constructions s es'
  | _ :: es' => constructions s es'
  end.

(** The two exported ways of making an [Option], as data: a sequence of
    them is what a caller outside the package can pass to [New]. *)
Inductive OptionCall : Type :=
| AuthCall (init : option TokenSourceInitializer)
| DialOptionsCall (opts : list DialOption).

Definition option_of (k : OptionCall) : Option :=
  match k with
  | AuthCall init => WithAuth init
  | DialOptionsCall opts => WithGRPCDialOptions opts
  end.

(** The dial options that a sequence of option calls supplies, in order. *)
Fixpoint supplied (ks : list OptionCall) : list DialOption :=
  match ks with
  | [] => []
  | AuthCall _ :: ks' => supplied ks'
  | DialOptionsCall opts :: ks' => opts ++ supplied ks'
  end.

(** The events of [newConnection]: the transport credentials are asked
    for, and, when that succeeds, one dial follows. *)
Definition connecting {transport : Transport} (ctx : Context)
    (zitadel : Zitadel) (source : option TokenSource)
    (opts : list DialOption) : list Event :=
  TransportCredentialsCalled (Domain zitadel) (IsTLS zitadel)
    (IsInsecureSkipVerifyTLS zitadel)
  :: match transportCredentials (Domain zitadel) (IsTLS zitadel)
             (IsInsecureSkipVerifyTLS zitadel) with
     | (_, Some _) => []
     | (creds, None) =>
         [DialContextCalled ctx (Host zitadel)
            (WithTransportCredentials creds
             :: WithPerRPCCredentials
                  {| tls := IsTLS zitadel; tokenSource := source |}
             :: opts)]
     end.

(** Assignment to the slot of a service, and the firing of its guard, by
    service. *)
Definition set_slot (s : Service) : option Stub -> Client -> Client :=
  match s with
  | System => set_systemService
  | Admin => set_adminService
  | Management => set_managementService
  | User => set_userService
  | UserV2 => set_userServiceV2
  | Auth => set_authService
  | Settings => set_settingsService
  | SettingsV2 => set_settingsServiceV2
  | Session => set_sessionService
  | SessionV2 => set_sessionServiceV2
  | Organization => set_organizationService
  | OrganizationV2 => set_organizationServiceV2
  | OIDC => set_oidcService
  | OIDCV2 => set_oidcServiceV2
  end.

Definition fire (s : Service) (c : Client) : Client :=
  set_once
    (match s with
     | System => clientOnce.set_systemService
     | Admin => clientOnce.set_adminService
     | Management => clientOnce.set_managementService
     | User => clientOnce.set_userService
     | UserV2 => clientOnce.set_userServiceV2
     | Auth => clientOnce.set_authService
     | Settings => clientOnce.set_settingsService
     | SettingsV2 => clientOnce.set_settingsServiceV2
     | Session => clientOnce.set_sessionService
     | SessionV2 => clientOnce.set_sessionServiceV2
     | Organization => clientOnce.set_organizationService
     | OrganizationV2 => clientOnce.set_organizationServiceV2
     | OIDC => clientOnce.set_oidcService
     | OIDCV2 => clientOnce.set_oidcServiceV2
     end fired (once c)) c.

(** What a reachable client satisfies: a populated slot holds a stub of its
    own service bound to the client's connection, and a guard that has
    fired has a populated slot. *)
Definition consistent (c : Client) : Prop :=
  forall s,
    (forall st, slot s c = Some st ->
       stub_cc st = connection c /\ stub_service st = s)
    /\ (done (guard s c) = true -> exists st, slot s c = Some st).

(** A concrete setting in which the statements below can be run: the issuer
    [https://id.example.com], a transport that always connects, a static
    token, and an initializer that fails. *)
Module Fixture.

Definition transport : Transport := {|
  transportCredentials := fun _ _ _ => (Some (mkTransportCredentials 1), None);
  DialContext := fun _ _ _ => (Some (clientConn 7), None)
|}.

Definition issuer : Zitadel := {|
  Origin := "https://id.example.com:443";
  Domain := "id.example.com";
  Host := "id.example.com:443";
  IsTLS := true;
  IsInsecureSkipVerifyTLS := false
|}.

(** A local deployment without TLS. *)
Definition local : Zitadel := {|
  Origin := "http://localhost:8080";
  Domain := "localhost";
  Host := "localhost:8080";
  IsTLS := false;
  IsInsecureSkipVerifyTLS := true
|}.

Definition staticToken : TokenSource := {| Token := inl "tok-123" |}.

Definition pat : TokenSourceInitializer := fun _ _ => (Some staticToken, None).

Definition denied : error := mkError "invalid credentials".

Definition failing : TokenSourceInitializer := fun _ _ => (None, Some denied).

(** The client that [New] returns over this transport. *)
Definition client : Client := newClient (Some (clientConn 7)).

(** The world once [New] has returned it. *)
Definition constructed : World :=
  snd (New (transport := transport) 0 issuer [WithAuth (Some pat)] emptyWorld).


End Fixture.

(** The initializer that a sequence of option calls leaves installed, from
    the one installed before: the argument of the last [WithAuth]. *)
Fixpoint installed (init : option TokenSourceInitializer)
    (ks : list OptionCall) : option TokenSourceInitializer :=
  match ks with
  | [] => init
  | AuthCall init' :: ks' => installed init' ks'
  | DialOptionsCall _ :: ks' => installed init ks'
  end.

(** Transports that fail. *)
Module Faults.

Definition badCertPool : error := mkError "cannot load system cert pool".

(** The transport credentials cannot be built. *)
Definition noCredentials : Transport := {|
  transportCredentials := fun _ _ _ => (None, Some badCertPool);
  DialContext := fun _ _ _ => (Some (clientConn 7), None)
|}.

End Faults.

(** A populated slot has a fired guard, on every client reached with the
    generated constructors from one that has the property. *)
Definition guarded (c : Client) : Prop :=
  forall s st, slot s c = Some st -> done (guard s c) = true.

(** ** Package [object]: the generated code of [zitadel/object.proto] *)

Module object.

Open Scope Z_scope.

(** A Go map literal, as its entries; a Go map read [m[k]], with [None] for
    a missing key. *)
Fixpoint lookup {K V : Type} (eqb : K -> K -> bool) (k : K)
    (m : list (K * V)) : option V :=
  match m with
  | [] => None
  | (k', v) :: m' => if eqb k k' then Some v else lookup eqb k m'
  end.

(** [TextQueryMethod], an [int32]. *)
Definition TextQueryMethod : Type := Z.

Definition TextQueryMethod_TEXT_QUERY_METHOD_EQUALS : TextQueryMethod := 0.
Definition TextQueryMethod_TEXT_QUERY_METHOD_EQUALS_IGNORE_CASE : TextQueryMethod := 1.
Definition TextQueryMethod_TEXT_QUERY_METHOD_STARTS_WITH : TextQueryMethod := 2.
Definition TextQueryMethod_TEXT_QUERY_METHOD_STARTS_WITH_IGNORE_CASE : TextQueryMethod := 3.
Definition TextQueryMethod_TEXT_QUERY_METHOD_CONTAINS : TextQueryMethod := 4.
Definition TextQueryMethod_TEXT_QUERY_METHOD_CONTAINS_IGNORE_CASE : TextQueryMethod := 5.
Definition TextQueryMethod_TEXT_QUERY_METHOD_ENDS_WITH : TextQueryMethod := 6.
Definition TextQueryMethod_TEXT_QUERY_METHOD_ENDS_WITH_IGNORE_CASE : TextQueryMethod := 7.

Definition TextQueryMethod_name : list (Z * string) :=
  [ (0, "TEXT_QUERY_METHOD_EQUALS");
    (1, "TEXT_QUERY_METHOD_EQUALS_IGNORE_CASE");
    (2, "TEXT_QUERY_METHOD_STARTS_WITH");
    (3, "TEXT_QUERY_METHOD_STARTS_WITH_IGNORE_CASE");
    (4, "TEXT_QUERY_METHOD_CONTAINS");
    (5, "TEXT_QUERY_METHOD_CONTAINS_IGNORE_CASE");
    (6, "TEXT_QUERY_METHOD_ENDS_WITH");
    (7, "TEXT_QUERY_METHOD_ENDS_WITH_IGNORE_CASE") ].

Definition TextQueryMethod_value : list (string * Z) :=
  [ ("TEXT_QUERY_METHOD_EQUALS", 0);
    ("TEXT_QUERY_METHOD_EQUALS_IGNORE_CASE", 1);
    ("TEXT_QUERY_METHOD_STARTS_WITH", 2);
    ("TEXT_QUERY_METHOD_STARTS_WITH_IGNORE_CASE", 3);
    ("TEXT_QUERY_METHOD_CONTAINS", 4);
    ("TEXT_QUERY_METHOD_CONTAINS_IGNORE_CASE", 5);
    ("TEXT_QUERY_METHOD_ENDS_WITH", 6);
    ("TEXT_QUERY_METHOD_ENDS_WITH_IGNORE_CASE", 7) ].

(** [ListQueryMethod], an [int32]. *)
Definition ListQueryMethod : Type := Z.

Definition ListQueryMethod_LIST_QUERY_METHOD_IN : ListQueryMethod := 0.

Definition ListQueryMethod_name : list (Z * string) :=
  [ (0, "LIST_QUERY_METHOD_IN") ].

Definition ListQueryMethod_value : list (string * Z) :=
  [ ("LIST_QUERY_METHOD_IN", 0) ].

(** [TimestampQueryMethod], an [int32]. *)
Definition TimestampQueryMethod : Type := Z.

Definition TimestampQueryMethod_TIMESTAMP_QUERY_METHOD_EQUALS : TimestampQueryMethod := 0.
Definition TimestampQueryMethod_TIMESTAMP_QUERY_METHOD_GREATER : TimestampQueryMethod := 1.
Definition TimestampQueryMethod_TIMESTAMP_QUERY_METHOD_GREATER_OR_EQUALS : TimestampQueryMethod := 2.
Definition TimestampQueryMethod_TIMESTAMP_QUERY_METHOD_LESS : TimestampQueryMethod := 3.
Definition TimestampQueryMethod_TIMESTAMP_QUERY_METHOD_LESS_OR_EQUALS : TimestampQueryMethod := 4.

Definition TimestampQueryMethod_name : list (Z * string) :=
  [ (0, "TIMESTAMP_QUERY_METHOD_EQUALS");
    (1, "TIMESTAMP_QUERY_METHOD_GREATER");
    (2, "TIMESTAMP_QUERY_METHOD_GREATER_OR_EQUALS");
    (3, "TIMESTAMP_QUERY_METHOD_LESS");
    (4, "TIMESTAMP_QUERY_METHOD_LESS_OR_EQUALS") ].

Definition TimestampQueryMethod_value : list (string * Z) :=
  [ ("TIMESTAMP_QUERY_METHOD_EQUALS", 0);
    ("TIMESTAMP_QUERY_METHOD_GREATER", 1);
    ("TIMESTAMP_QUERY_METHOD_GREATER_OR_EQUALS", 2);
    ("TIMESTAMP_QUERY_METHOD_LESS", 3);
    ("TIMESTAMP_QUERY_METHOD_LESS_OR_EQUALS", 4) ].

(** [Number]: the conversion to [protoreflect.EnumNumber], another
    [int32]. *)
Definition TextQueryMethod_Number (x : TextQueryMethod) : Z := x.
Definition ListQueryMethod_Number (x : ListQueryMethod) : Z := x.
Definition TimestampQueryMethod_Number (x : TimestampQueryMethod) : Z := x.

(** [*timestamppb.Timestamp]: a message of another package. *)
Record Timestamp : Type := { Seconds : Z; Nanos : Z }.

(** What the protobuf runtime ([protoimpl]) provides to this file. *)
Inductive FileDescriptor : Type := fileDescriptor (id : nat).

(** The three messages of the file, by their index in
    [file_zitadel_object_proto_msgTypes]. *)
Inductive MessageIndex : Type := msg0 | msg1 | msg2.

(** The fields an exporter gives access to. *)
Inductive InternalField : Type := field_state | field_sizeCache | field_unknownFields.

(** The exporter closures of [file_zitadel_object_proto_init]: the same
    switch for each of the three messages. *)
Definition exporter (m : MessageIndex) (i : Z) : option InternalField :=
  match i with
  | 0 => Some field_state
  | 1 => Some field_sizeCache
  | 2 => Some field_unknownFields
  | _ => None
  end.

(** [protoimpl.MessageInfo], as far as this file touches it: the exporter
    installed, and what the runtime keeps in it. *)
Record MessageInfo : Type := {
  Exporter : option MessageIndex;
  messageData : nat
}.

Inductive EnumInfo : Type := enumInfo (data : nat).

(** The entries of [file_zitadel_object_proto_goTypes]. *)
Inductive GoType : Type :=
| goTextQueryMethod | goListQueryMethod | goTimestampQueryMethod
| goObjectDetails | goListQuery | goListDetails | goTimestamp.

(** [protoimpl.TypeBuilder], with the [DescBuilder] inlined. *)
Record TypeBuilder : Type := {
  GoPackagePath : string;
  RawDescriptor : list Byte.byte;
  NumEnums : Z;
  NumMessages : Z;
  NumExtensions : Z;
  NumServices : Z;
  GoTypes : list GoType;
  DependencyIndexes : list Z;
  EnumInfos : list EnumInfo;
  MessageInfos : list MessageInfo
}.

(** What [Build] hands back: the file descriptor, and the two slices it
    was given, which it fills in place. *)
Record Built : Type := {
  out_File : option FileDescriptor;
  out_EnumInfos : list EnumInfo;
  out_MessageInfos : list MessageInfo
}.

Class Runtime : Type := {
  UnsafeEnabled : bool;
  CompressGZIP : list Byte.byte -> list Byte.byte;
  Build : TypeBuilder -> Built;
  (* [reflect.TypeOf(x{}).PkgPath()] *)
  PkgPath : string
}.

(** The package-level variables of the file. A nil slice is the empty
    list. *)
Record Globals : Type := {
  File_zitadel_object_proto : option FileDescriptor;
  file_zitadel_object_proto_rawDesc : list Byte.byte;
  file_zitadel_object_proto_rawDescOnce : Once;
  file_zitadel_object_proto_rawDescData : list Byte.byte;
  file_zitadel_object_proto_enumTypes : list EnumInfo;
  file_zitadel_object_proto_msgTypes : list MessageInfo;
  file_zitadel_object_proto_goTypes : list GoType;
  file_zitadel_object_proto_depIdxs : list Z
}.

(** The variables as their declarations initialize them, before any
    [init] function runs, for the raw descriptor [raw] of the file. *)
Definition declared (raw : list Byte.byte) : Globals := {|
  File_zitadel_object_proto := None;
  file_zitadel_object_proto_rawDesc := raw;
  file_zitadel_object_proto_rawDescOnce := fresh;
  file_zitadel_object_proto_rawDescData := raw;
  file_zitadel_object_proto_enumTypes :=
    [enumInfo 0; enumInfo 0; enumInfo 0];
  file_zitadel_object_proto_msgTypes :=
    [ {| Exporter := None; messageData := 0 |};
      {| Exporter := None; messageData := 0 |};
      {| Exporter := None; messageData := 0 |} ];
  file_zitadel_object_proto_goTypes :=
    [ goTextQueryMethod; goListQueryMethod; goTimestampQueryMethod;
      goObjectDetails; goListQuery; goListDetails; goTimestamp ];
  file_zitadel_object_proto_depIdxs := [6; 6; 6; 3; 3; 3; 3; 0]
|}.

(** [msgTypes[i].Exporter = f]: an index out of range panics. *)
Fixpoint setExporter (i : nat) (f : MessageIndex) (l : list MessageInfo)
  : outcome (list MessageInfo) :=
  match l, i with
  | [], _ => Panicked
  | m :: l', O =>
      Returned ({| Exporter := Some f; messageData := messageData m |} :: l')
  | m :: l', S i' =>
      match setExporter i' f l' with
      | Returned l'' => Returned (m :: l'')
      | Panicked => Panicked
      end
  end.

Section Generated.

Context {runtime : Runtime}.

Definition file_zitadel_object_proto_rawDescGZIP (g : Globals)
  : list Byte.byte * Globals :=
  let g' :=
    if done (file_zitadel_object_proto_rawDescOnce g) then g
    else
      {| File_zitadel_object_proto := File_zitadel_object_proto g;
         file_zitadel_object_proto_rawDesc :=
           file_zitadel_object_proto_rawDesc g;
         file_zitadel_object_proto_rawDescOnce := fired;
         file_zitadel_object_proto_rawDescData :=
           CompressGZIP (file_zitadel_object_proto_rawDescData g);
         file_zitadel_object_proto_enumTypes :=
           file_zitadel_object_proto_enumTypes g;
         file_zitadel_object_proto_msgTypes :=
           file_zitadel_object_proto_msgTypes g;
         file_zitadel_object_proto_goTypes :=
           file_zitadel_object_proto_goTypes g;
         file_zitadel_object_proto_depIdxs :=
           file_zitadel_object_proto_depIdxs g |} in
  (file_zitadel_object_proto_rawDescData g', g').

(** The deprecated [Descriptor] and [EnumDescriptor] methods: the
    compressed descriptor and the index path of the type. *)
Definition TextQueryMethod_EnumDescriptor (g : Globals)
  : (list Byte.byte * list Z) * Globals :=
  let (b, g') := file_zitadel_object_proto_rawDescGZIP g in ((b, [0]), g').

Definition ListQueryMethod_EnumDescriptor (g : Globals)
  : (list Byte.byte * list Z) * Globals :=
  let (b, g') := file_zitadel_object_proto_rawDescGZIP g in ((b, [1]), g').

Definition TimestampQueryMethod_EnumDescriptor (g : Globals)
  : (list Byte.byte * list Z) * Globals :=
  let (b, g') := file_zitadel_object_proto_rawDescGZIP g in ((b, [2]), g').

Definition ObjectDetails_Descriptor (g : Globals)
  : (list Byte.byte * list Z) * Globals :=
  let (b, g') := file_zitadel_object_proto_rawDescGZIP g in ((b, [0]), g').

Definition ListQuery_Descriptor (g : Globals)
  : (list Byte.byte * list Z) * Globals :=
  let (b, g') := file_zitadel_object_proto_rawDescGZIP g in ((b, [1]), g').

Definition ListDetails_Descriptor (g : Globals)
  : (list Byte.byte * list Z) * Globals :=
  let (b, g') := file_zitadel_object_proto_rawDescGZIP g in ((b, [2]), g').

Definition file_zitadel_object_proto_init (g : Globals) : outcome Globals :=
  match File_zitadel_object_proto g with
  | Some _ => Returned g
  | None =>
      let exported :=
        if negb UnsafeEnabled then
          match setExporter 0 msg0 (file_zitadel_object_proto_msgTypes g) with
          | Returned l0 =>
              match setExporter 1 msg1 l0 with
              | Returned l1 => setExporter 2 msg2 l1
              | Panicked => Panicked
              end
          | Panicked => Panicked
          end
        else Returned (file_zitadel_object_proto_msgTypes g) in
      match exported with
      | Panicked => Panicked
      | Returned msgTypes =>
          let out :=
            Build
              {| GoPackagePath := PkgPath;
                 RawDescriptor := file_zitadel_object_proto_rawDesc g;
                 NumEnums := 3;
                 NumMessages := 3;
                 NumExtensions := 0;
                 NumServices := 0;
                 GoTypes := file_zitadel_object_proto_goTypes g;
                 DependencyIndexes := file_zitadel_object_proto_depIdxs g;
                 EnumInfos := file_zitadel_object_proto_enumTypes g;
                 MessageInfos := msgTypes |} in
          Returned
            {| File_zitadel_object_proto := out_File out;
               file_zitadel_object_proto_rawDesc := [];
               file_zitadel_object_proto_rawDescOnce :=
                 file_zitadel_object_proto_rawDescOnce g;
               file_zitadel_object_proto_rawDescData :=
                 file_zitadel_object_proto_rawDescData g;
               file_zitadel_object_proto_enumTypes := out_EnumInfos out;
               file_zitadel_object_proto_msgTypes := out_MessageInfos out;
               file_zitadel_object_proto_goTypes := [];
               file_zitadel_object_proto_depIdxs := [] |}
      end
  end.

End Generated.

(** The messages. A receiver is a pointer, nil-able; the [state] of a
    message is the message info it points at, if any. *)

Module ObjectDetails.

Record t : Type := {
  state : option MessageIndex;
  sizeCache : Z;
  unknownFields : list Byte.byte;
  Sequence : Z;
  CreationDate : option Timestamp;
  ChangeDate : option Timestamp;
  ResourceOwner : string
}.





(** [Reset]: the assignment through a nil receiver panics. *)
Definition Reset {runtime : Runtime} (x : option t) : outcome t :=
  match x with
  | None => Panicked
  | Some _ =>
      Returned
        {| state := if UnsafeEnabled then Some msg0 else None;
           sizeCache := 0;
           unknownFields := [];
           Sequence := 0;
           CreationDate := None;
           ChangeDate := None;
           ResourceOwner := "" |}
  end.

End ObjectDetails.

Module ListQuery.

Record t : Type := {
  state : option MessageIndex;
  sizeCache : Z;
  unknownFields : list Byte.byte;
  Offset : Z;
  Limit : Z;
  Asc : bool
}.




Definition Reset {runtime : Runtime} (x : option t) : outcome t :=
  match x with
  | None => Panicked
  | Some _ =>
      Returned
        {| state := if UnsafeEnabled then Some msg1 else None;
           sizeCache := 0;
           unknownFields := [];
           Offset := 0;
           Limit := 0;
           Asc := false |}
  end.

End ListQuery.

Module ListDetails.

Record t : Type := {
  state : option MessageIndex;
  sizeCache : Z;
  unknownFields : list Byte.byte;
  TotalResult : Z;
  ProcessedSequence : Z;
  ViewTimestamp : option Timestamp
}.




Definition Reset {runtime : Runtime} (x : option t) : outcome t :=
  match x with
  | None => Panicked
  | Some _ =>
      Returned
        {| state := if UnsafeEnabled then Some msg2 else None;
           sizeCache := 0;
           unknownFields := [];
           TotalResult := 0;
           ProcessedSequence := 0;
           ViewTimestamp := None |}
  end.

End ListDetails.

End object.

(** [n] calls of [file_zitadel_object_proto_rawDescGZIP] in a row, each
    result kept. *)
Fixpoint descriptors {runtime : object.Runtime} (n : nat) (g : object.Globals)
  : list (list Byte.byte) * object.Globals :=
  match n with
  | O => ([], g)
  | S n' =>
      let (b, g') := object.file_zitadel_object_proto_rawDescGZIP g in
      let (bs, g'') := descriptors n' g' in
      (b :: bs, g'')
  end.

(** ** Package [v2beta]: the settings client on a connection of its own *)

Module v2beta.

(** [*zitadel.Connection], which embeds a [*grpc.ClientConn]. *)
Module Connection.

Record t : Type := {
  id : nat;
  ClientConn : option ClientConn
}.

End Connection.

(** [zitadel.Option]: opaque. *)
Inductive ConnectionOption : Type := connectionOption (id : nat).

(** [zitadel.NewConnection], of a package that is not part of the
    available sources. *)
Class Dialer : Type := {
  NewConnection :
    Context -> string -> string -> list string -> list ConnectionOption ->
    option Connection.t * option error
}.

Record Client : Type := {
  Connection : Connection.t;
  SettingsServiceClient : Stub
}.

(** [NewClient]. The stub is constructed at once, on the [ClientConn] of
    the connection; reading that field of a nil connection panics. *)
Definition NewClient {dialer : Dialer} {stubs : StubLibrary}
    (ctx : Context) (issuer api : string) (scopes : list string)
    (options : list ConnectionOption) (w : World)
  : outcome (option Client * option error) * World :=
  match NewConnection ctx issuer api scopes options with
  | (_, Some e) => (Returned (None, Some e), w)
  | (None, None) => (Panicked, w)
  | (Some conn, None) =>
      match NewServiceClient Settings (Connection.ClientConn conn) w with
      | (Returned stub, w') =>
          (Returned
             (Some {| Connection := conn; SettingsServiceClient := stub |},
              None), w')
      | (Panicked, w') => (Panicked, w')
      end
  end.

End v2beta.

(** A runtime to run the generated code with: compression puts the gzip
    magic number in front, and [Build] hands back what it was given. *)
Module Sample.

Definition runtime : object.Runtime := {|
  object.UnsafeEnabled := false;
  object.CompressGZIP := fun b => Byte.x1f :: Byte.x8b :: b;
  object.Build := fun tb =>
    {| object.out_File := Some (object.fileDescriptor 1);
       object.out_EnumInfos := object.EnumInfos tb;
       object.out_MessageInfos := object.MessageInfos tb |};
  object.PkgPath := "github.com/zitadel/zitadel-go/v3/pkg/client/zitadel/object"
|}.

Definition raw : list Byte.byte := [Byte.x0a; Byte.x14; Byte.x7a].

End Sample.

(** * Properties of the options *)

Lemma applyTo_app (c : clientOptions) (l1 l2 : list Option) :
  applyTo c (l1 ++ l2) = applyTo (applyTo c l1) l2.
Proof. unfold applyTo. apply fold_left_app. Qed.

Lemma applyTo_cons (c : clientOptions) (o : Option) (l : list Option) :
  applyTo c (o :: l) = applyTo (o c) l.
Proof. reflexivity. Qed.

Lemma dial_options_keep_auth (ds : list (list DialOption)) :
  forall c,
    initTokenSource (applyTo c (map WithGRPCDialOptions ds)) = initTokenSource c.
Proof.
  induction ds as [|d ds IH]; intros c; cbn [map].
  - reflexivity.
  - rewrite applyTo_cons, IH. reflexivity.
Qed.

Lemma dial_options_accumulate (ds : list (list DialOption)) :
  forall c,
    grpcDialOptions (applyTo c (map WithGRPCDialOptions ds))
    = grpcDialOptions c ++ List.concat ds.
Proof.
  induction ds as [|d ds IH]; intros c; cbn [map List.concat].
  - cbn. now rewrite app_nil_r.
  - rewrite applyTo_cons, IH. cbn. now rewrite app_assoc.
Qed.

Lemma calls_accumulate (ks : list OptionCall) :
  forall c,
    grpcDialOptions (applyTo c (map option_of ks))
    = grpcDialOptions c ++ supplied ks.
Proof.
  induction ks as [|k ks IH]; intros c; cbn [map supplied].
  - cbn. now rewrite app_nil_r.
  - rewrite applyTo_cons, IH. destruct k; cbn.
    + reflexivity.
    + now rewrite app_assoc.
Qed.

Lemma supplied_app (k1 k2 : list OptionCall) :
  supplied (k1 ++ k2) = supplied k1 ++ supplied k2.
Proof.
  induction k1 as [|k k1 IH]; simpl.
  - reflexivity.
  - destruct k; simpl; rewrite IH; [reflexivity | now rewrite app_assoc].
Qed.

Lemma last_auth_wins (pre : list Option) (g : option TokenSourceInitializer)
    (ds : list (list DialOption)) :
  initTokenSource (applyOptions (pre ++ WithAuth g :: map WithGRPCDialOptions ds))
  = g.
Proof.
  unfold applyOptions.
  rewrite applyTo_app, applyTo_cons, dial_options_keep_auth. reflexivity.
Qed.


(** * Properties of the construction path *)

Section ConstructionFacts.

Context {transport : Transport}.

Variables (ctx : Context) (zitadel : Zitadel).

Lemma after_log (w : World) (e : Event) : log e w = after w [e].
Proof. reflexivity. Qed.

Lemma after_after (w : World) (es1 es2 : list Event) :
  after (after w es1) es2 = after w (es1 ++ es2).
Proof. unfold after; simpl. now rewrite app_assoc. Qed.

Lemma newConnection_events (source : option TokenSource)
    (opts : list DialOption) :
  events (newConnection ctx zitadel source opts) = connecting ctx zitadel source opts.
Proof.
  unfold events, connecting, newConnection, bind, call, ret.
  cbn [fst snd].
  destruct (transportCredentials _ _ _) as [creds [e|]]; reflexivity.
Qed.

Lemma newConnection_run (source : option TokenSource)
    (opts : list DialOption) (w : World) :
  newConnection ctx zitadel source opts w
  = (result (newConnection ctx zitadel source opts),
     after w (events (newConnection ctx zitadel source opts))).
Proof.
  unfold result, events, newConnection, bind, call, ret.
  destruct (transportCredentials _ _ _) as [creds [e|]]; cbn.
  - reflexivity.
  - unfold log, after; cbn. now rewrite <- app_assoc.
Qed.

(** [New] does to any world what it does to the empty one. *)
Lemma New_run (opts : list Option) (w : World) :
  New ctx zitadel opts w
  = (result (New ctx zitadel opts), after w (events (New ctx zitadel opts))).
Proof.
  unfold result, events, New, bind, call, ret.
  destruct (initTokenSource (applyOptions opts)) as [init|].
  - destruct (init ctx (Origin zitadel)) as [source [e|]]; cbn.
    + reflexivity.
    + rewrite (newConnection_run _ _ (log _ w)).
      rewrite (newConnection_run _ _ (log _ emptyWorld)).
      destruct (result _) as [conn [e|]]; cbn;
        rewrite !after_log, !after_after; reflexivity.
  - rewrite (newConnection_run _ _ w).
    rewrite (newConnection_run _ _ emptyWorld).
    destruct (result _) as [conn [e|]]; cbn;
      rewrite ?after_after; reflexivity.
Qed.

(** The events of [New] when an initializer is installed. *)
Lemma New_events_auth (opts : list Option) (init : TokenSourceInitializer) :
  initTokenSource (applyOptions opts) = Some init ->
  events (New ctx zitadel opts)
  = InitTokenSourceCalled ctx (Origin zitadel)
    :: match init ctx (Origin zitadel) with
       | (_, Some _) => []
       | (source, None) =>
           connecting ctx zitadel source
             (grpcDialOptions (applyOptions opts))
       end.
Proof.
  intros Hinit. unfold events, New, bind, call, ret. rewrite Hinit.
  destruct (init ctx (Origin zitadel)) as [source [e|]]; cbn.
  - reflexivity.
  - rewrite (newConnection_run _ _ (log _ emptyWorld)).
    rewrite newConnection_events.
    destruct (result _) as [conn [e|]]; reflexivity.
Qed.

(** The events of [New] when no initializer is installed. *)
Lemma New_events_no_auth (opts : list Option) :
  initTokenSource (applyOptions opts) = None ->
  events (New ctx zitadel opts)
  = connecting ctx zitadel None (grpcDialOptions (applyOptions opts)).
Proof.
  intros Hinit. unfold events, New, bind, call, ret. rewrite Hinit.
  rewrite (newConnection_run _ _ emptyWorld).
  rewrite newConnection_events.
  destruct (result _) as [conn [e|]]; reflexivity.
Qed.

End ConstructionFacts.

Section DialFacts.

Context {transport : Transport}.

Variables (ctx : Context) (zitadel : Zitadel).

(** The result of [New] depends on the options only through the options
    value they build. *)
Lemma New_ext (opts opts' : list Option) :
  applyOptions opts = applyOptions opts' ->
  New ctx zitadel opts = New ctx zitadel opts'.
Proof. intros H. unfold New. now rewrite H. Qed.

Lemma connecting_dial (source : option TokenSource) (opts : list DialOption)
    (e : Event) :
  In e (connecting ctx zitadel source opts) -> is_dial e = true ->
  injector e = Some {| tls := IsTLS zitadel; tokenSource := source |}
  /\ dialled e
     = Some (WithTransportCredentials
               (fst (transportCredentials (Domain zitadel) (IsTLS zitadel)
                       (IsInsecureSkipVerifyTLS zitadel)))
             :: WithPerRPCCredentials
                  {| tls := IsTLS zitadel; tokenSource := source |}
             :: opts).
Proof.
  unfold connecting.
  destruct (transportCredentials _ _ _) as [creds [err|]]; cbn.
  - intros [<- | []]; discriminate.
  - intros [<- | [<- | []]]; [discriminate | intros _; split; reflexivity].
Qed.

Lemma connecting_no_init (source : option TokenSource)
    (opts : list DialOption) :
  initializations (connecting ctx zitadel source opts) = 0.
Proof.
  unfold connecting, initializations.
  destruct (transportCredentials _ _ _) as [creds [err|]]; reflexivity.
Qed.


End DialFacts.

(** * Construction: what [New] guarantees *)

(** C3. When the last [WithAuth] of the options installs an initializer and
    that initializer returns an error, [New] returns a nil client together
    with that very error, and the only thing it has done is to call the
    initializer: neither the transport credentials nor the dial are
    reached, so no connection is established. *)
Theorem New_auth_error_aborts {transport : Transport}
    (ctx : Context) (zitadel : Zitadel) (pre : list Option)
    (init : TokenSourceInitializer) (ds : list (list DialOption))
    (source : option TokenSource) (e : error) (w : World) :
  init ctx (Origin zitadel) = (source, Some e) ->
  New ctx zitadel (pre ++ WithAuth (Some init) :: map WithGRPCDialOptions ds) w
  = ((None, Some e), after w [InitTokenSourceCalled ctx (Origin zitadel)]).
Proof.
  intros Hinit. rewrite New_run. unfold result.
  rewrite (New_events_auth ctx zitadel _ (last_auth_wins pre (Some init) ds)).
  unfold New, bind, call, ret. rewrite last_auth_wins, Hinit. reflexivity.
Qed.

Lemma New_auth_error_aborts_witness :
  New (transport := Fixture.transport) 0 Fixture.issuer
    ([WithGRPCDialOptions [OtherDialOption 1]]
     ++ WithAuth (Some Fixture.failing)
     :: map WithGRPCDialOptions [[OtherDialOption 2]]) emptyWorld
  = ((None, Some Fixture.denied),
     after emptyWorld
       [InitTokenSourceCalled 0 "https://id.example.com:443"]).
Proof.
  apply (New_auth_error_aborts (transport := Fixture.transport) 0
           Fixture.issuer [WithGRPCDialOptions [OtherDialOption 1]]
           Fixture.failing [[OtherDialOption 2]] (source := None)).
  reflexivity.
Defined.



(** C5. The injector that [newConnection] installs answers
    [RequireTransportSecurity] with the issuer's TLS flag; two connections
    built for issuers with the same TLS flag, whatever their token sources
    (present or absent), install injectors that answer alike. *)
Theorem RequireTransportSecurity_is_tls_flag {transport : Transport}
    (ctx1 ctx2 : Context) (z1 z2 : Zitadel)
    (source1 source2 : option TokenSource) (opts1 opts2 : list DialOption)
    (e1 e2 : Event) (c1 c2 : cred) :
  In e1 (events (newConnection ctx1 z1 source1 opts1)) ->
  injector e1 = Some c1 ->
  In e2 (events (newConnection ctx2 z2 source2 opts2)) ->
  injector e2 = Some c2 ->
  RequireTransportSecurity c1 = IsTLS z1
  /\ tokenSource c1 = source1
  /\ (IsTLS z1 = IsTLS z2 ->
      RequireTransportSecurity c1 = RequireTransportSecurity c2).
Proof.
  rewrite !newConnection_events. intros Hin1 Hc1 Hin2 Hc2.
  assert (Hd1 : is_dial e1 = true)
    by (destruct e1; first [reflexivity | discriminate]).
  assert (Hd2 : is_dial e2 = true)
    by (destruct e2; first [reflexivity | discriminate]).
  destruct (connecting_dial Hin1 Hd1) as [H1 _].
  destruct (connecting_dial Hin2 Hd2) as [H2 _].
  rewrite H1 in Hc1. rewrite H2 in Hc2.
  injection Hc1 as <-. injection Hc2 as <-.
  repeat split. intros Htls. exact Htls.
Qed.

Lemma RequireTransportSecurity_is_tls_flag_witness :
  RequireTransportSecurity
    {| tls := true; tokenSource := Some Fixture.staticToken |} = true
  /\ tokenSource {| tls := true; tokenSource := Some Fixture.staticToken |}
     = Some Fixture.staticToken
  /\ (true = true ->
      RequireTransportSecurity
        {| tls := true; tokenSource := Some Fixture.staticToken |}
      = RequireTransportSecurity {| tls := true; tokenSource := None |}).
Proof.
  apply (RequireTransportSecurity_is_tls_flag
           (transport := Fixture.transport) 0 0 Fixture.issuer Fixture.issuer
           (Some Fixture.staticToken) None [OtherDialOption 1] []
           (DialContextCalled 0 "id.example.com:443"
              [WithTransportCredentials (Some (mkTransportCredentials 1));
               WithPerRPCCredentials
                 {| tls := true; tokenSource := Some Fixture.staticToken |};
               OtherDialOption 1])
           (DialContextCalled 0 "id.example.com:443"
              [WithTransportCredentials (Some (mkTransportCredentials 1));
               WithPerRPCCredentials {| tls := true; tokenSource := None |}])).
  - right; left; reflexivity.
  - reflexivity.
  - right; left; reflexivity.
  - reflexivity.
Defined.

(** C6. In a sequence of option calls in which [WithGRPCDialOptions A]
    comes before [WithGRPCDialOptions B], the options value holds the dial
    options supplied before, then [A], then those supplied in between, then
    [B], then those supplied after: nothing is replaced. Every dial of [New]
    is given exactly this list after the two options [newConnection]
    installs itself. *)
Theorem WithGRPCDialOptions_appends {transport : Transport}
    (ctx : Context) (zitadel : Zitadel) (pre mid post : list OptionCall)
    (A B : list DialOption) :
  let opts :=
    map option_of
      (pre ++ DialOptionsCall A :: mid ++ DialOptionsCall B :: post) in
  let effective :=
    supplied pre ++ A ++ supplied mid ++ B ++ supplied post in
  grpcDialOptions (applyOptions opts) = effective
  /\ grpcDialOptions
       (applyTo zeroOptions [WithGRPCDialOptions A; WithGRPCDialOptions B])
     = A ++ B
  /\ (forall e o,
        In e (events (New ctx zitadel opts)) -> dialled e = Some o ->
        skipn 2 o = effective).
Proof.
  intros opts effective.
  assert (Heff : grpcDialOptions (applyOptions opts) = effective).
  { unfold opts, effective, applyOptions. rewrite calls_accumulate.
    cbn [grpcDialOptions zeroOptions app].
    rewrite supplied_app. cbn [supplied]. rewrite supplied_app. reflexivity. }
  split; [exact Heff|]. split; [reflexivity|].
  intros e o Hin Ho.
  assert (Hd : is_dial e = true)
    by (destruct e; first [reflexivity | discriminate]).
  destruct (initTokenSource (applyOptions opts)) as [init|] eqn:Hinit.
  - rewrite (New_events_auth ctx zitadel opts Hinit) in Hin.
    destruct Hin as [<- | Hin]; [discriminate|].
    destruct (init ctx (Origin zitadel)) as [source [err|]];
      [destruct Hin|].
    apply connecting_dial in Hin; [|assumption]. destruct Hin as [_ Hin].
    rewrite Hin in Ho. injection Ho as <-. exact Heff.
  - rewrite (New_events_no_auth ctx zitadel opts Hinit) in Hin.
    apply connecting_dial in Hin; [|assumption]. destruct Hin as [_ Hin].
    rewrite Hin in Ho. injection Ho as <-. exact Heff.
Qed.

(** C10. When [WithAuth] is applied more than once, the initializer of the
    last application is the one stored, whatever the earlier ones were, and
    [New] behaves as if that application were the only one; the dial
    options of all [WithGRPCDialOptions] calls, on the contrary, are all
    kept, in order. *)
Theorem WithAuth_last_one_wins {transport : Transport}
    (ctx : Context) (zitadel : Zitadel) (pre mid : list OptionCall)
    (f g : option TokenSourceInitializer) (ds : list (list DialOption)) :
  let opts :=
    map option_of pre ++ WithAuth f
    :: map option_of mid ++ WithAuth g :: map WithGRPCDialOptions ds in
  let kept := supplied pre ++ supplied mid ++ List.concat ds in
  initTokenSource (applyOptions opts) = g
  /\ grpcDialOptions (applyOptions opts) = kept
  /\ New ctx zitadel opts
     = New ctx zitadel [WithAuth g; WithGRPCDialOptions kept].
Proof.
  intros opts kept.
  assert (Hg : initTokenSource (applyOptions opts) = g).
  { unfold opts.
    replace (map option_of pre ++ WithAuth f
             :: map option_of mid ++ WithAuth g :: map WithGRPCDialOptions ds)
      with ((map option_of pre ++ WithAuth f :: map option_of mid)
            ++ WithAuth g :: map WithGRPCDialOptions ds)
      by (rewrite <- app_assoc; reflexivity).
    apply last_auth_wins. }
  assert (Hk : grpcDialOptions (applyOptions opts) = kept).
  { unfold opts, kept, applyOptions.
    rewrite applyTo_app, applyTo_cons, applyTo_app, applyTo_cons.
    rewrite dial_options_accumulate. cbn [WithAuth grpcDialOptions].
    rewrite calls_accumulate. cbn [WithAuth grpcDialOptions].
    rewrite calls_accumulate. cbn [zeroOptions grpcDialOptions app].
    now rewrite app_assoc. }
  split; [exact Hg|]. split; [exact Hk|].
  apply New_ext. unfold applyOptions at 2. cbn.
  destruct (applyOptions opts) as [i d]; cbn in *. now subst.
Qed.

(** * Two runs of the construction path *)

(** The issuer [https://id.example.com] with TLS and a static token
    [tok-123]: the initializer is called, then the transport credentials,
    then the dial, whose injector requires transport security and attaches
    the bearer token. *)
Example static_token_run :
  New (transport := Fixture.transport) 0 Fixture.issuer
    [WithAuth (Some Fixture.pat)] emptyWorld
  = ((Some Fixture.client, None),
     {| next_addr := 0;
        trace :=
          [ InitTokenSourceCalled 0 "https://id.example.com:443";
            TransportCredentialsCalled "id.example.com" true false;
            DialContextCalled 0 "id.example.com:443"
              [ WithTransportCredentials (Some (mkTransportCredentials 1));
                WithPerRPCCredentials
                  {| tls := true;
                     tokenSource := Some Fixture.staticToken |} ] ] |})
  /\ GetRequestMetadata
       {| tls := true; tokenSource := Some Fixture.staticToken |}
     = ([("authorization", "Bearer tok-123")], None).
Proof. split; reflexivity. Qed.

(** A local issuer without TLS and no credential provider: no initializer
    call, an injector without token source that does not require transport
    security and attaches nothing. *)
Example plaintext_run :
  New (transport := Fixture.transport) 0 Fixture.local [] emptyWorld
  = ((Some Fixture.client, None),
     {| next_addr := 0;
        trace :=
          [ TransportCredentialsCalled "localhost" false true;
            DialContextCalled 0 "localhost:8080"
              [ WithTransportCredentials (Some (mkTransportCredentials 1));
                WithPerRPCCredentials
                  {| tls := false; tokenSource := None |} ] ] |})
  /\ RequireTransportSecurity {| tls := false; tokenSource := None |} = false
  /\ GetRequestMetadata {| tls := false; tokenSource := None |} = ([], None).
Proof. repeat split. Qed.

(** * Properties of the registry *)

Lemma Service_eqb_refl (s : Service) : Service_eqb s s = true.
Proof. destruct s; reflexivity. Qed.

Lemma Service_eqb_neq (a b : Service) : a <> b -> Service_eqb a b = false.
Proof. destruct a, b; (reflexivity || congruence). Qed.

Lemma Service_eq_dec (a b : Service) : {a = b} + {a <> b}.
Proof. decide equality. Defined.

Lemma connection_fire (s : Service) (c : Client) :
  connection (fire s c) = connection c.
Proof. destruct s; reflexivity. Qed.

Lemma connection_set_slot (s : Service) (v : option Stub) (c : Client) :
  connection (set_slot s v c) = connection c.
Proof. destruct s; reflexivity. Qed.

Lemma slot_fire (s s' : Service) (c : Client) :
  slot s' (fire s c) = slot s' c.
Proof. destruct s, s'; reflexivity. Qed.

Lemma slot_set_slot (s : Service) (v : option Stub) (c : Client) :
  slot s (set_slot s v c) = v.
Proof. destruct s; reflexivity. Qed.

Lemma slot_set_slot_other (s s' : Service) (v : option Stub) (c : Client) :
  s' <> s -> slot s' (set_slot s v c) = slot s' c.
Proof. destruct s, s'; (reflexivity || congruence). Qed.

Lemma guard_fire (s : Service) (c : Client) : guard s (fire s c) = fired.
Proof. destruct s; reflexivity. Qed.

Lemma guard_fire_other (s s' : Service) (c : Client) :
  s' <> s -> guard s' (fire s c) = guard s' c.
Proof. destruct s, s'; (reflexivity || congruence). Qed.

Lemma guard_set_slot (s s' : Service) (v : option Stub) (c : Client) :
  guard s' (set_slot s v c) = guard s' c.
Proof. destruct s, s'; reflexivity. Qed.

Lemma constructions_app (s : Service) (es1 es2 : list Event) :
  constructions s (es1 ++ es2) = constructions s es1 + constructions s es2.
Proof.
  induction es1 as [|e es1 IH]; [reflexivity|].
  destruct e; cbn; rewrite IH; lia.
Qed.

Section RegistryFacts.

Context {stubs : StubLibrary}.

(** An access to a slot whose guard has fired returns what the slot holds
    and changes nothing. *)
Lemma access_done (s : Service) (c : Client) (w : World) :
  done (guard s c) = true ->
  access s c w = (Returned (slot s c), c, w).
Proof.
  intros H. destruct s; cbn in H;
    cbv [access SystemService AdminService ManagementService AuthService
         UserService UserServiceV2 SettingsService SettingsServiceV2
         SessionService SessionServiceV2 OIDCService OIDCServiceV2
         OrganizationService OrganizationServiceV2 Do mbind read];
    rewrite H; reflexivity.
Qed.

(** An access to a slot whose guard has not fired calls the constructor
    with the client's connection; the guard fires whatever the outcome, and
    the slot is assigned when the constructor returns. *)
Lemma access_first (s : Service) (c : Client) (w : World) :
  done (guard s c) = false ->
  access s c w
  = match NewServiceClient s (connection c) w with
    | (Returned st, w') =>
        (Returned (Some st), fire s (set_slot s (Some st) c), w')
    | (Panicked, w') => (Panicked, fire s c, w')
    end.
Proof.
  intros H. destruct s; cbn in H;
    cbv [access SystemService AdminService ManagementService AuthService
         UserService UserServiceV2 SettingsService SettingsServiceV2
         SessionService SessionServiceV2 OIDCService OIDCServiceV2
         OrganizationService OrganizationServiceV2 Do mbind read construct
         assign];
    rewrite H;
    destruct (NewServiceClient _ (connection c) w) as [[st|] w'];
    reflexivity.
Qed.

(** An access leaves the connection, the other slots and the other guards
    as they were. *)
Lemma access_frame (s : Service) (c : Client) (w : World) :
  connection (snd (fst (access s c w))) = connection c
  /\ forall s', s' <> s ->
       slot s' (snd (fst (access s c w))) = slot s' c
       /\ guard s' (snd (fst (access s c w))) = guard s' c.
Proof.
  destruct (done (guard s c)) eqn:H.
  - rewrite (access_done _ _ w H). cbn [fst snd]. split; [reflexivity|]. now split.
  - rewrite (access_first _ _ w H).
    destruct (NewServiceClient s (connection c) w) as [[st|] w']; cbn [fst snd].
    + rewrite connection_fire, connection_set_slot. split; [reflexivity|].
      intros s' Hs'. rewrite slot_fire, slot_set_slot_other by assumption.
      rewrite guard_fire_other, guard_set_slot by assumption. now split.
    + rewrite connection_fire. split; [reflexivity|].
      intros s' Hs'. rewrite slot_fire.
      rewrite guard_fire_other by assumption. now split.
Qed.

(** After an access the guard of the slot has fired. *)
Lemma access_fires (s : Service) (c : Client) (w : World) :
  done (guard s (snd (fst (access s c w)))) = true.
Proof.
  destruct (done (guard s c)) eqn:H.
  - rewrite (access_done _ _ w H). exact H.
  - rewrite (access_first _ _ w H).
    destruct (NewServiceClient s (connection c) w) as [[st|] w']; cbn [fst snd];
      now rewrite guard_fire.
Qed.

(** Once the guard of a slot has fired, no access changes the slot. *)
Lemma access_keeps_done (s s' : Service) (c : Client) (w : World) :
  done (guard s c) = true ->
  slot s (snd (fst (access s' c w))) = slot s c
  /\ done (guard s (snd (fst (access s' c w)))) = true.
Proof.
  intros H. destruct (Service_eq_dec s s') as [<- | Hne].
  - rewrite (access_done _ _ w H). now split.
  - destruct (access_frame s' c w) as [_ Hf].
    destruct (Hf s Hne) as [-> ->]. now split.
Qed.

End RegistryFacts.

Lemma accesses_cons {stubs : StubLibrary} (s : Service) (l : list Service)
    (c : Client) (w : World) :
  accesses (s :: l) c w
  = (fst (fst (access s c w))
       :: fst (fst (accesses l (snd (fst (access s c w)))
                      (snd (access s c w)))),
     snd (fst (accesses l (snd (fst (access s c w))) (snd (access s c w)))),
     snd (accesses l (snd (fst (access s c w))) (snd (access s c w)))).
Proof.
  cbn [accesses]. destruct (access s c w) as [[r c'] w']. cbn [fst snd].
  destruct (accesses l c' w') as [[rs c''] w'']. reflexivity.
Qed.

(** A sequence of accesses leaves the connection as it was, and also the
    slots and guards of the services that are not accessed. *)
Lemma accesses_frame {stubs : StubLibrary} (l : list Service) :
  forall c w,
    connection (snd (fst (accesses l c w))) = connection c
    /\ forall s, ~ In s l ->
         slot s (snd (fst (accesses l c w))) = slot s c
         /\ guard s (snd (fst (accesses l c w))) = guard s c.
Proof.
  induction l as [|s' l IH]; intros c w.
  - cbn. split; [reflexivity|]. now split.
  - rewrite accesses_cons. cbn [fst snd].
    destruct (IH (snd (fst (access s' c w))) (snd (access s' c w)))
      as [Hc Hs].
    destruct (access_frame s' c w) as [Hc' Hs'].
    split; [congruence|].
    intros s Hin. cbn in Hin.
    destruct (Hs s) as [-> ->]; [tauto|].
    apply Hs'. intros ->. tauto.
Qed.

Section GeneratedStubs.

Existing Instance generated.

Lemma access_generated_first (s : Service) (c : Client) (w : World) :
  done (guard s c) = false ->
  access s c w
  = (Returned (Some (newStub s (connection c) w)),
     fire s (set_slot s (Some (newStub s (connection c) w)) c),
     {| next_addr := S (next_addr w);
        trace := trace w ++ [StubConstructed s (connection c) (next_addr w)] |}).
Proof. intros H. rewrite (access_first _ _ w H). reflexivity. Qed.

(** Every access returns what the slot holds when the access is over. *)
Lemma access_generated_returns (s : Service) (c : Client) (w : World) :
  fst (fst (access s c w)) = Returned (slot s (snd (fst (access s c w)))).
Proof.
  destruct (done (guard s c)) eqn:H.
  - now rewrite (access_done _ _ w H).
  - rewrite (access_generated_first _ _ w H). cbn [fst snd].
    now rewrite slot_fire, slot_set_slot.
Qed.

(** An access constructs one stub, of its own service, when the guard has
    not fired, and none when it has. *)
Lemma access_generated_constructions (s s' : Service) (c : Client)
    (w : World) :
  constructions s' (trace (snd (access s c w)))
  = constructions s' (trace w)
    + (if done (guard s c) then 0 else if Service_eqb s' s then 1 else 0).
Proof.
  destruct (done (guard s c)) eqn:H.
  - rewrite (access_done _ _ w H). cbn [snd]. lia.
  - rewrite (access_generated_first _ _ w H). cbn [snd trace].
    rewrite constructions_app. cbn. lia.
Qed.

Lemma access_consistent (s : Service) (c : Client) (w : World) :
  consistent c -> consistent (snd (fst (access s c w))).
Proof.
  intros Hc. destruct (done (guard s c)) eqn:H.
  - now rewrite (access_done _ _ w H).
  - rewrite (access_generated_first _ _ w H). cbn [fst snd].
    intros s'. rewrite connection_fire, connection_set_slot, slot_fire.
    destruct (Service_eq_dec s' s) as [-> | Hne].
    + rewrite slot_set_slot. split.
      * intros st [= <-]. now split.
      * intros _. eexists; reflexivity.
    + rewrite slot_set_slot_other by assumption.
      rewrite guard_fire_other, guard_set_slot by assumption.
      apply Hc.
Qed.

Lemma accesses_consistent (l : list Service) :
  forall c w, consistent c -> consistent (snd (fst (accesses l c w))).
Proof.
  induction l as [|s l IH]; intros c w Hc.
  - exact Hc.
  - rewrite accesses_cons. cbn [fst snd]. apply IH.
    now apply access_consistent.
Qed.

(** Once the guard of a slot has fired, no sequence of accesses changes the
    slot or constructs a stub of its service again, and every access to it
    in the sequence returns what the slot holds. *)
Lemma accesses_keep_done (s : Service) (l : list Service) :
  forall c w,
    done (guard s c) = true ->
    slot s (snd (fst (accesses l c w))) = slot s c
    /\ done (guard s (snd (fst (accesses l c w)))) = true
    /\ constructions s (trace (snd (accesses l c w)))
       = constructions s (trace w)
    /\ forall i, nth_error l i = Some s ->
         nth_error (fst (fst (accesses l c w))) i
         = Some (Returned (slot s c)).
Proof.
  induction l as [|s' l IH]; intros c w H.
  - cbn. repeat split; try assumption. intros [|i]; discriminate.
  - rewrite accesses_cons. cbn [fst snd].
    destruct (@access_keeps_done _ s s' c w H) as [Hslot Hdone].
    destruct (IH (snd (fst (access s' c w))) (snd (access s' c w)) Hdone)
      as (IH1 & IH2 & IH3 & IH4).
    repeat split.
    + congruence.
    + assumption.
    + rewrite IH3, access_generated_constructions.
      destruct (Service_eq_dec s s') as [<- | Hne].
      * rewrite H. lia.
      * rewrite (Service_eqb_neq Hne). destruct (done (guard s' c)); lia.
    + intros [|i] Hi; cbn [nth_error] in *.
      * injection Hi as ->. rewrite access_generated_returns.
        now rewrite Hslot.
      * rewrite (IH4 i Hi). now rewrite Hslot.
Qed.

End GeneratedStubs.

(** A client fresh from [New] is consistent and none of its guards has
    fired. *)
Lemma newClient_consistent (conn : option ClientConn) :
  consistent (newClient conn).
Proof. intros s. destruct s; cbn; split; (discriminate || intros; discriminate). Qed.

Lemma newClient_fresh (conn : option ClientConn) (s : Service) :
  done (guard s (newClient conn)) = false.
Proof. destruct s; reflexivity. Qed.

(** What [New] returns as a client is a fresh client on the connection that
    its one dial returned. *)
Lemma New_client {transport : Transport} (ctx : Context) (zitadel : Zitadel)
    (opts : list Option) (w0 w1 : World) (c : Client) :
  New ctx zitadel opts w0 = ((Some c, None), w1) ->
  c = newClient (connection c)
  /\ exists target o,
       trace w1 = trace w0 ++ events (New ctx zitadel opts)
       /\ filter is_dial (events (New ctx zitadel opts))
          = [DialContextCalled ctx target o]
       /\ connection c = fst (DialContext ctx target o).
Proof.
  rewrite New_run. intros [= Hres <-].
  unfold result, events in *.
  unfold New, bind, call, ret, newConnection in *.
  destruct (initTokenSource (applyOptions opts)) as [init|].
  - destruct (init ctx (Origin zitadel)) as [source [e|]]; cbn in *;
      [discriminate|].
    destruct (transportCredentials _ _ _) as [creds [e|]]; cbn in *;
      [discriminate|].
    destruct (DialContext _ _ _) as [conn [e|]] eqn:Hdial; cbn in *;
      [discriminate|].
    injection Hres as <-. split; [reflexivity|].
    do 2 eexists. split; [reflexivity|]. split; [reflexivity|].
    cbn. now rewrite Hdial.
  - destruct (transportCredentials _ _ _) as [creds [e|]]; cbn in *;
      [discriminate|].
    destruct (DialContext _ _ _) as [conn [e|]] eqn:Hdial; cbn in *;
      [discriminate|].
    injection Hres as <-. split; [reflexivity|].
    do 2 eexists. split; [reflexivity|]. split; [reflexivity|].
    cbn. now rewrite Hdial.
Qed.

(** * Registry: what the accessors guarantee *)

(** C2. On a client returned by [New], the first call of the accessor of a
    service, whatever accessors of other services were called before,
    constructs a stub of that service bound to the client's connection,
    stores it in the slot of the service and returns it; a second call
    straight after returns the same stub and changes nothing; and in any
    later sequence of accessor calls every call of this accessor returns
    that same stub, the slot keeps it, and no stub of the service is
    constructed again. *)
Theorem accessor_constructs_once {transport : Transport}
    (ctx : Context) (zitadel : Zitadel) (opts : list Option)
    (w0 w1 : World) (c : Client) :
  New ctx zitadel opts w0 = ((Some c, None), w1) ->
  forall (before : list Service) (s : Service) (later : list Service),
    ~ In s before ->
    let c0 := snd (fst (accesses (stubs := generated) before c w1)) in
    let wa := snd (accesses (stubs := generated) before c w1) in
    let st := newStub s (connection c) wa in
    let c1 := snd (fst (access (stubs := generated) s c0 wa)) in
    let w2 := snd (access (stubs := generated) s c0 wa) in
    fst (fst (access (stubs := generated) s c0 wa)) = Returned (Some st)
    /\ slot s c1 = Some st
    /\ constructions s (trace w2) = S (constructions s (trace wa))
    /\ access (stubs := generated) s c1 w2 = (Returned (Some st), c1, w2)
    /\ slot s (snd (fst (accesses (stubs := generated) later c1 w2)))
       = Some st
    /\ constructions s
         (trace (snd (accesses (stubs := generated) later c1 w2)))
       = constructions s (trace w2)
    /\ forall i, nth_error later i = Some s ->
         nth_error (fst (fst (accesses (stubs := generated) later c1 w2))) i
         = Some (Returned (Some st)).
Proof.
  intros Hnew before s later Hnot c0 wa st c1 w2.
  destruct (New_client _ _ _ _ Hnew) as [Hc _].
  destruct (accesses_frame (stubs := generated) before c w1) as [Hconn Hfr].
  destruct (Hfr s Hnot) as [_ Hguard].
  assert (Hfresh : done (guard s c0) = false).
  { unfold c0. rewrite Hguard, Hc. apply newClient_fresh. }
  assert (Hfirst := access_generated_first s c0 wa Hfresh).
  fold c0 in Hconn. rewrite Hconn in Hfirst. fold st in Hfirst.
  assert (Hslot : slot s c1 = Some st).
  { unfold c1. rewrite Hfirst. cbn [fst snd].
    now rewrite slot_fire, slot_set_slot. }
  assert (Hdone : done (guard s c1) = true)
    by apply (access_fires (stubs := generated)).
  split; [now rewrite Hfirst|]. split; [exact Hslot|]. split.
  { unfold w2. rewrite access_generated_constructions, Hfresh.
    rewrite Service_eqb_refl. lia. }
  split.
  { rewrite (access_done (stubs := generated) _ _ w2 Hdone).
    now rewrite Hslot. }
  destruct (accesses_keep_done s later c1 w2 Hdone) as (K1 & _ & K3 & K4).
  rewrite Hslot in K1, K4. repeat split; assumption.
Qed.

Lemma accessor_constructs_once_witness :
  let first :=
    access (stubs := generated) Admin Fixture.client Fixture.constructed in
  access (stubs := generated) Admin (snd (fst first)) (snd first)
  = (Returned
       (Some {| stub_service := Admin;
                stub_cc := Some (clientConn 7);
                stub_addr := 0 |}),
     snd (fst first), snd first).
Proof.
  assert (Hnew :
    New (transport := Fixture.transport) 0 Fixture.issuer
      [WithAuth (Some Fixture.pat)] emptyWorld
    = ((Some Fixture.client, None), Fixture.constructed)) by reflexivity.
  assert (Hnot : ~ In Admin []) by (intros []).
  exact (proj1 (proj2 (proj2 (proj2
           (@accessor_constructs_once Fixture.transport 0 Fixture.issuer
              [WithAuth (Some Fixture.pat)] emptyWorld Fixture.constructed
              Fixture.client Hnew [] Admin [] Hnot))))).
Defined.

(** C9. On a client returned by [New], after any accessor calls, one more
    accessor call leaves the connection as [New] set it and leaves the slot
    and the guard of every other service as they were; its own slot is
    populated afterwards; every populated slot holds a stub of its own
    service bound to that one connection, which is the connection that the
    single dial of [New] returned. *)
Theorem accessor_only_populates_own_slot {transport : Transport}
    (ctx : Context) (zitadel : Zitadel) (opts : list Option)
    (w0 w1 : World) (c : Client) :
  New ctx zitadel opts w0 = ((Some c, None), w1) ->
  forall (before : list Service) (s : Service),
    let c1 := snd (fst (accesses (stubs := generated) before c w1)) in
    let w2 := snd (accesses (stubs := generated) before c w1) in
    let c2 := snd (fst (access (stubs := generated) s c1 w2)) in
    connection c2 = connection c1
    /\ connection c1 = connection c
    /\ (forall s', s' <> s ->
          slot s' c2 = slot s' c1 /\ guard s' c2 = guard s' c1)
    /\ (exists st, slot s c2 = Some st)
    /\ (forall s' st, slot s' c2 = Some st ->
          stub_cc st = connection c /\ stub_service st = s')
    /\ (exists target o,
          filter is_dial (events (New ctx zitadel opts))
          = [DialContextCalled ctx target o]
          /\ connection c = fst (DialContext ctx target o)).
Proof.
  intros Hnew before s c1 w2 c2.
  destruct (New_client _ _ _ _ Hnew) as (Hc & target & o & _ & Hdial & Hconn).
  destruct (accesses_frame (stubs := generated) before c w1) as [Hc1 _].
  destruct (access_frame (stubs := generated) s c1 w2) as [Hc2 Hfr].
  fold c1 in Hc1. fold c2 in Hc2, Hfr.
  assert (Hcons : consistent c2).
  { apply access_consistent, accesses_consistent.
    rewrite Hc. apply newClient_consistent. }
  split; [exact Hc2|]. split; [exact Hc1|]. split; [exact Hfr|]. split.
  { apply (Hcons s). apply (access_fires (stubs := generated)). }
  split.
  { intros s' st Hst. destruct (Hcons s') as [Hb _].
    destruct (Hb st Hst) as [Hb1 Hb2]. split; [congruence | exact Hb2]. }
  exists target, o. now split.
Qed.

Lemma accessor_only_populates_own_slot_witness :
  let c1 :=
    snd (fst (accesses (stubs := generated) [System]
                Fixture.client Fixture.constructed)) in
  let w2 :=
    snd (accesses (stubs := generated) [System]
           Fixture.client Fixture.constructed) in
  let c2 := snd (fst (access (stubs := generated) Admin c1 w2)) in
  connection c2 = connection c1
  /\ (forall s', s' <> Admin ->
        slot s' c2 = slot s' c1 /\ guard s' c2 = guard s' c1)
  /\ (forall s' st, slot s' c2 = Some st ->
        stub_cc st = Some (clientConn 7) /\ stub_service st = s').
Proof.
  assert (Hnew :
    New (transport := Fixture.transport) 0 Fixture.issuer
      [WithAuth (Some Fixture.pat)] emptyWorld
    = ((Some Fixture.client, None), Fixture.constructed)) by reflexivity.
  destruct (@accessor_only_populates_own_slot Fixture.transport 0
              Fixture.issuer [WithAuth (Some Fixture.pat)] emptyWorld
              Fixture.constructed Fixture.client Hnew [System] Admin)
    as (H1 & _ & H3 & _ & H5 & _).
  split; [exact H1 | split; [exact H3 | exact H5]].
Defined.




(** * More on the options *)

(** A sequence of [WithAuth] and [WithGRPCDialOptions] calls, applied to
    any options value, leaves the initializer of the last [WithAuth] (the
    one already there when there is none) and appends the dial options of
    all [WithGRPCDialOptions] calls in order. *)
Lemma applyTo_calls (ks : list OptionCall) (c : clientOptions) :
  applyTo c (map option_of ks)
  = {| initTokenSource := installed (initTokenSource c) ks;
       grpcDialOptions := grpcDialOptions c ++ supplied ks |}.
Proof.
  revert c. induction ks as [|k ks IH]; intros c; cbn [map installed supplied].
  - destruct c; cbn. now rewrite app_nil_r.
  - rewrite applyTo_cons, IH. destruct k; cbn.
    + reflexivity.
    + now rewrite app_assoc.
Qed.

(** X1. [New] depends on a sequence of option calls only through the
    initializer of its last [WithAuth] and the dial options it supplies in
    order: two sequences that agree on both make [New] behave alike, so
    [WithAuth] may be moved across [WithGRPCDialOptions] calls freely. *)
Theorem New_depends_on_normal_form {transport : Transport}
    (ctx : Context) (zitadel : Zitadel) (ks ks' : list OptionCall) :
  installed None ks = installed None ks' ->
  supplied ks = supplied ks' ->
  New ctx zitadel (map option_of ks) = New ctx zitadel (map option_of ks').
Proof.
  intros Hi Hs. apply New_ext. unfold applyOptions.
  rewrite !applyTo_calls. cbn. now rewrite Hi, Hs.
Qed.

Lemma New_depends_on_normal_form_witness :
  New (transport := Fixture.transport) 0 Fixture.issuer
    (map option_of
       [AuthCall (Some Fixture.failing);
        DialOptionsCall [OtherDialOption 1];
        AuthCall (Some Fixture.pat);
        DialOptionsCall [OtherDialOption 2]])
  = New (transport := Fixture.transport) 0 Fixture.issuer
      (map option_of
         [DialOptionsCall [OtherDialOption 1; OtherDialOption 2];
          AuthCall (Some Fixture.pat)]).
Proof.
  apply (New_depends_on_normal_form (transport := Fixture.transport));
    reflexivity.
Defined.

(** X2. One [WithGRPCDialOptions] call with the options [A] followed by
    [B] does what two calls, with [A] and then with [B], do; a call with no
    options does nothing. This holds in the middle of any options. *)
Theorem WithGRPCDialOptions_splits (pre post : list Option)
    (A B : list DialOption) :
  applyOptions (pre ++ WithGRPCDialOptions (A ++ B) :: post)
  = applyOptions
      (pre ++ WithGRPCDialOptions A :: WithGRPCDialOptions B :: post)
  /\ applyOptions (pre ++ WithGRPCDialOptions [] :: post)
     = applyOptions (pre ++ post).
Proof.
  unfold applyOptions. rewrite !applyTo_app, !applyTo_cons.
  split; f_equal; unfold WithGRPCDialOptions; cbn.
  - now rewrite app_assoc.
  - destruct (applyTo zeroOptions pre); cbn. now rewrite app_nil_r.
Qed.

(** X3. A [WithAuth] with a nil initializer undoes every [WithAuth] before
    it: when it is the last one, [New] calls no initializer and every dial
    installs an injector without token source. *)
Theorem WithAuth_nil_removes_auth {transport : Transport}
    (ctx : Context) (zitadel : Zitadel) (pre : list Option)
    (ds : list (list DialOption)) :
  let opts := pre ++ WithAuth None :: map WithGRPCDialOptions ds in
  initTokenSource (applyOptions opts) = None
  /\ initializations (events (New ctx zitadel opts)) = 0
  /\ forall e, In e (events (New ctx zitadel opts)) -> is_dial e = true ->
       injector e = Some {| tls := IsTLS zitadel; tokenSource := None |}.
Proof.
  intros opts.
  assert (Hnone : initTokenSource (applyOptions opts) = None)
    by apply last_auth_wins.
  rewrite (New_events_no_auth ctx zitadel opts Hnone).
  split; [exact Hnone|]. split; [apply connecting_no_init|].
  intros e Hin Hd. now apply connecting_dial in Hin.
Qed.

(** * More on the construction path *)

(** X4. [New] returns either a client and no error, or no client and an
    error, never both and never neither. A returned client is fresh (no
    guard fired, no slot populated) and sits on the connection that a dial
    made by this call returned without error. A returned error is, as it
    is, the error of the installed initializer, of the transport
    credentials, or of a dial made by this call. *)
Theorem New_client_xor_error {transport : Transport}
    (ctx : Context) (zitadel : Zitadel) (opts : list Option) :
  (exists target o,
     result (New ctx zitadel opts)
     = (Some (newClient (fst (DialContext ctx target o))), None)
     /\ snd (DialContext ctx target o) = None
     /\ In (DialContextCalled ctx target o) (events (New ctx zitadel opts)))
  \/ (exists e,
        result (New ctx zitadel opts) = (None, Some e)
        /\ ((exists init,
               initTokenSource (applyOptions opts) = Some init
               /\ snd (init ctx (Origin zitadel)) = Some e)
            \/ snd (transportCredentials (Domain zitadel) (IsTLS zitadel)
                      (IsInsecureSkipVerifyTLS zitadel)) = Some e
            \/ (exists target o,
                  In (DialContextCalled ctx target o)
                     (events (New ctx zitadel opts))
                  /\ snd (DialContext ctx target o) = Some e))).
Proof.
  unfold result, events, New, bind, call, ret, newConnection.
  destruct (initTokenSource (applyOptions opts)) as [init|].
  - destruct (init ctx (Origin zitadel)) as [source [e|]] eqn:Hinit;
      cbn.
    { right. exists e. split; [reflexivity|]. left. exists init.
      now rewrite Hinit. }
    destruct (transportCredentials _ _ _) as [creds [e|]]; cbn.
    { right. exists e. split; [reflexivity|]. right; left. reflexivity. }
    destruct (DialContext _ _ _) as [conn [e|]] eqn:Hdial; cbn.
    + right. exists e. split; [reflexivity|]. right; right.
      do 2 eexists. split; [right; right; left; reflexivity|].
      now rewrite Hdial.
    + left. do 2 eexists. rewrite Hdial. cbn.
      split; [reflexivity|]. split; [reflexivity|].
      right; right; left; reflexivity.
  - destruct (transportCredentials _ _ _) as [creds [e|]]; cbn.
    { right. exists e. split; [reflexivity|]. right; left. reflexivity. }
    destruct (DialContext _ _ _) as [conn [e|]] eqn:Hdial; cbn.
    + right. exists e. split; [reflexivity|]. right; right.
      do 2 eexists. split; [right; left; reflexivity|].
      now rewrite Hdial.
    + left. do 2 eexists. rewrite Hdial. cbn.
      split; [reflexivity|]. split; [reflexivity|].
      right; left; reflexivity.
Qed.

(** X5. When the transport credentials cannot be built, [newConnection]
    returns that error with a nil connection and never dials; [New] then
    returns the same error and no client, although an installed
    initializer that succeeds has already been called, once. *)
Theorem credentials_error_prevents_dial {transport : Transport}
    (ctx : Context) (zitadel : Zitadel) (opts : list Option) (e : error) :
  snd (transportCredentials (Domain zitadel) (IsTLS zitadel)
         (IsInsecureSkipVerifyTLS zitadel)) = Some e ->
  (forall init, initTokenSource (applyOptions opts) = Some init ->
                snd (init ctx (Origin zitadel)) = None) ->
  (forall source dopts w,
     newConnection ctx zitadel source dopts w
     = ((None, Some e),
        after w [TransportCredentialsCalled (Domain zitadel) (IsTLS zitadel)
                   (IsInsecureSkipVerifyTLS zitadel)]))
  /\ result (New ctx zitadel opts) = (None, Some e)
  /\ filter is_dial (events (New ctx zitadel opts)) = []
  /\ initializations (events (New ctx zitadel opts))
     = match initTokenSource (applyOptions opts) with
       | Some _ => 1
       | None => 0
       end.
Proof.
  intros Htc Hok. split.
  { intros source dopts w. unfold newConnection, bind, call, ret.
    destruct (transportCredentials _ _ _) as [creds err]. cbn in Htc.
    now subst err. }
  unfold result, events, initializations, New, bind, call, ret, newConnection.
  destruct (initTokenSource (applyOptions opts)) as [init|].
  - specialize (Hok init eq_refl).
    destruct (init ctx (Origin zitadel)) as [source err]. cbn in Hok.
    subst err. destruct (transportCredentials _ _ _) as [creds err].
    cbn in Htc. subst err. repeat split.
  - destruct (transportCredentials _ _ _) as [creds err].
    cbn in Htc. subst err. repeat split.
Qed.

Lemma credentials_error_prevents_dial_witness :
  result (New (transport := Faults.noCredentials) 0 Fixture.issuer
            [WithAuth (Some Fixture.pat)])
  = (None, Some Faults.badCertPool)
  /\ filter is_dial
       (events (New (transport := Faults.noCredentials) 0 Fixture.issuer
                  [WithAuth (Some Fixture.pat)])) = []
  /\ initializations
       (events (New (transport := Faults.noCredentials) 0 Fixture.issuer
                  [WithAuth (Some Fixture.pat)])) = 1.
Proof.
  assert (Hok : forall init,
            initTokenSource (applyOptions [WithAuth (Some Fixture.pat)])
            = Some init ->
            snd (init 0 (Origin Fixture.issuer)) = None).
  { intros init [= <-]. reflexivity. }
  exact (proj2 (@credentials_error_prevents_dial Faults.noCredentials 0
                  Fixture.issuer [WithAuth (Some Fixture.pat)]
                  Faults.badCertPool eq_refl Hok)).
Defined.

(** * More on the registry *)

Lemma Service_eqb_true (a b : Service) : Service_eqb a b = true -> a = b.
Proof. destruct a, b; (reflexivity || discriminate). Qed.

Lemma existsb_Service (s : Service) (l : list Service) :
  existsb (Service_eqb s) l = true <-> In s l.
Proof.
  rewrite existsb_exists. split.
  - intros (x & Hin & Heq). apply Service_eqb_true in Heq. now subst.
  - intros Hin. exists s. split; [assumption | apply Service_eqb_refl].
Qed.

(** An access fires the guard of its own service and no other. *)
Lemma access_guard {stubs : StubLibrary} (s s' : Service) (c : Client)
    (w : World) :
  done (guard s (snd (fst (access s' c w))))
  = done (guard s c) || Service_eqb s s'.
Proof.
  destruct (Service_eq_dec s s') as [<- | Hne].
  - rewrite access_fires, Service_eqb_refl. now rewrite orb_true_r.
  - destruct (access_frame s' c w) as [_ Hf]. destruct (Hf s Hne) as [_ ->].
    rewrite (Service_eqb_neq Hne). now rewrite orb_false_r.
Qed.

Lemma accesses_guard {stubs : StubLibrary} (s : Service) (l : list Service) :
  forall c w,
    done (guard s (snd (fst (accesses l c w))))
    = done (guard s c) || existsb (Service_eqb s) l.
Proof.
  induction l as [|s' l IH]; intros c w.
  - cbn. now rewrite orb_false_r.
  - rewrite accesses_cons. cbn [fst snd existsb].
    rewrite IH, access_guard. now rewrite orb_assoc.
Qed.

(** With the generated constructors, a sequence of accesses constructs a
    stub of a service exactly when the guard of the service had not fired
    and the service is accessed, and then once. *)
Lemma accesses_constructions (s : Service) (l : list Service) :
  forall c w,
    constructions s (trace (snd (accesses (stubs := generated) l c w)))
    = constructions s (trace w)
      + (if done (guard s c) then 0
         else if existsb (Service_eqb s) l then 1 else 0).
Proof.
  induction l as [|s' l IH]; intros c w.
  - cbn. destruct (done (guard s c)); lia.
  - rewrite accesses_cons. cbn [fst snd existsb].
    rewrite IH, access_generated_constructions, access_guard.
    destruct (Service_eqb s s') eqn:E.
    + apply Service_eqb_true in E. subst s'.
      destruct (done (guard s c)); cbn; lia.
    + rewrite orb_false_r.
      destruct (done (guard s' c)), (done (guard s c)); cbn; lia.
Qed.

Lemma access_guarded (s : Service) (c : Client) (w : World) :
  guarded c -> guarded (snd (fst (access (stubs := generated) s c w))).
Proof.
  intros Hg s' st. destruct (Service_eq_dec s' s) as [-> | Hne].
  - intros _. apply (access_fires (stubs := generated)).
  - destruct (access_frame (stubs := generated) s c w) as [_ Hf].
    destruct (Hf s' Hne) as [-> ->]. apply Hg.
Qed.

Lemma accesses_guarded (l : list Service) :
  forall c w,
    guarded c -> guarded (snd (fst (accesses (stubs := generated) l c w))).
Proof.
  induction l as [|s l IH]; intros c w Hg.
  - exact Hg.
  - rewrite accesses_cons. cbn [fst snd]. now apply IH, access_guarded.
Qed.

Lemma newClient_guarded (conn : option ClientConn) : guarded (newClient conn).
Proof. intros s st. destruct s; discriminate. Qed.

(** X6. On a client returned by [New], after any sequence of accessor
    calls: the guard of a service has fired exactly when the service was
    accessed; its slot is populated exactly when it was accessed; and the
    number of stubs constructed for it has grown by one when it was
    accessed, however often, and not at all otherwise. *)
Theorem registry_tracks_accesses {transport : Transport}
    (ctx : Context) (zitadel : Zitadel) (opts : list Option)
    (w0 w1 : World) (c : Client) :
  New ctx zitadel opts w0 = ((Some c, None), w1) ->
  forall (l : list Service) (s : Service),
    let c' := snd (fst (accesses (stubs := generated) l c w1)) in
    let w' := snd (accesses (stubs := generated) l c w1) in
    done (guard s c') = existsb (Service_eqb s) l
    /\ ((exists st, slot s c' = Some st) <-> In s l)
    /\ constructions s (trace w')
       = constructions s (trace w1)
         + (if existsb (Service_eqb s) l then 1 else 0).
Proof.
  intros Hnew l s c' w'.
  destruct (New_client _ _ _ _ Hnew) as [Hc _].
  assert (Hfresh : done (guard s c) = false)
    by (rewrite Hc; apply newClient_fresh).
  assert (Hguard : done (guard s c') = existsb (Service_eqb s) l).
  { unfold c'. now rewrite accesses_guard, Hfresh. }
  assert (Hcons : consistent c').
  { apply accesses_consistent. rewrite Hc. apply newClient_consistent. }
  assert (Hg : guarded c').
  { apply accesses_guarded. rewrite Hc. apply newClient_guarded. }
  split; [exact Hguard|]. split.
  - rewrite <- existsb_Service, <- Hguard. split.
    + intros [st Hst]. exact (Hg s st Hst).
    + apply (Hcons s).
  - unfold w'. now rewrite accesses_constructions, Hfresh.
Qed.

Lemma registry_tracks_accesses_witness :
  let c' :=
    snd (fst (accesses (stubs := generated) [Admin; System; Admin]
                Fixture.client Fixture.constructed)) in
  let w' :=
    snd (accesses (stubs := generated) [Admin; System; Admin]
           Fixture.client Fixture.constructed) in
  done (guard Admin c') = true
  /\ ((exists st, slot Admin c' = Some st) <-> In Admin [Admin; System; Admin])
  /\ constructions Admin (trace w') = 1.
Proof.
  assert (Hnew :
    New (transport := Fixture.transport) 0 Fixture.issuer
      [WithAuth (Some Fixture.pat)] emptyWorld
    = ((Some Fixture.client, None), Fixture.constructed)) by reflexivity.
  exact (@registry_tracks_accesses Fixture.transport 0 Fixture.issuer
           [WithAuth (Some Fixture.pat)] emptyWorld Fixture.constructed
           Fixture.client Hnew [Admin; System; Admin] Admin).
Defined.

(** X7. On a client returned by [New], in any sequence of accessor calls,
    every call returns, and what it returns is a stub, never nil, of the
    service asked for, bound to the client's connection. *)
Theorem accessors_return_stubs {transport : Transport}
    (ctx : Context) (zitadel : Zitadel) (opts : list Option)
    (w0 w1 : World) (c : Client) :
  New ctx zitadel opts w0 = ((Some c, None), w1) ->
  forall (l : list Service) (i : nat) (s : Service),
    nth_error l i = Some s ->
    exists st,
      nth_error (fst (fst (accesses (stubs := generated) l c w1))) i
      = Some (Returned (Some st))
      /\ stub_service st = s
      /\ stub_cc st = connection c.
Proof.
  intros Hnew l.
  destruct (New_client _ _ _ _ Hnew) as [Hc _].
  assert (Hcons : consistent c) by (rewrite Hc; apply newClient_consistent).
  clear Hnew Hc. remember (connection c) as conn eqn:Hconn.
  revert c w1 Hcons Hconn.
  induction l as [|s' l IH]; intros c w Hcons Hconn [|i] s Hi;
    try discriminate.
  - cbn in Hi. injection Hi as ->.
    rewrite accesses_cons. cbn [fst nth_error].
    rewrite (access_generated_returns s c w).
    assert (Hc1 := access_consistent s w Hcons).
    destruct (proj2 (Hc1 s) (access_fires (stubs := generated) s c w))
      as [st Hst].
    exists st. rewrite Hst. split; [reflexivity|].
    destruct (proj1 (Hc1 s) st Hst) as [Hcc Hsv]. split; [exact Hsv|].
    rewrite Hcc, Hconn.
    apply (proj1 (access_frame (stubs := generated) s c w)).
  - rewrite accesses_cons. cbn [fst nth_error]. cbn in Hi.
    apply IH; [now apply access_consistent | | exact Hi].
    rewrite Hconn. symmetry.
    apply (proj1 (access_frame (stubs := generated) s' c w)).
Qed.

Lemma accessors_return_stubs_witness :
  exists st,
    nth_error
      (fst (fst (accesses (stubs := generated) [Admin; System; Admin]
                   Fixture.client Fixture.constructed))) 2
    = Some (Returned (Some st))
    /\ stub_service st = Admin
    /\ stub_cc st = Some (clientConn 7).
Proof.
  assert (Hnew :
    New (transport := Fixture.transport) 0 Fixture.issuer
      [WithAuth (Some Fixture.pat)] emptyWorld
    = ((Some Fixture.client, None), Fixture.constructed)) by reflexivity.
  exact (@accessors_return_stubs Fixture.transport 0 Fixture.issuer
           [WithAuth (Some Fixture.pat)] emptyWorld Fixture.constructed
           Fixture.client Hnew [Admin; System; Admin] 2 Admin eq_refl).
Defined.

(** * The generated enums *)

Section EnumMaps.

Import object.

Open Scope Z_scope.

Ltac by_name n :=
  cbn;
  repeat match goal with
         | |- context [Z.eqb n ?k] =>
             destruct (Z.eqb_spec n k);
             [subst n; intros [= <-]; reflexivity|]
         end;
  discriminate.

Ltac by_value s :=
  cbn;
  repeat match goal with
         | |- context [String.eqb s ?k] =>
             destruct (String.eqb_spec s k);
             [subst s; intros [= <-]; reflexivity|]
         end;
  discriminate.

Ltac named n :=
  cbn;
  repeat match goal with
         | |- context [Z.eqb n ?k] =>
             destruct (Z.eqb_spec n k); [intros _; lia|]
         end;
  discriminate.

(** X8. For each of the three enums, the map from numbers to names and the
    map from names to numbers are inverse to one another: a number has the
    name [s] exactly when the name [s] has that number. The names are
    given to the numbers 0 to 7 of [TextQueryMethod], to 0 of
    [ListQueryMethod] and to 0 to 4 of [TimestampQueryMethod], and to no
    other number. *)
Theorem enum_maps_are_inverse (n : Z) (s : string) :
  (lookup Z.eqb n TextQueryMethod_name = Some s
   <-> lookup String.eqb s TextQueryMethod_value = Some n)
  /\ (lookup Z.eqb n ListQueryMethod_name = Some s
      <-> lookup String.eqb s ListQueryMethod_value = Some n)
  /\ (lookup Z.eqb n TimestampQueryMethod_name = Some s
      <-> lookup String.eqb s TimestampQueryMethod_value = Some n)
  /\ ((exists s', lookup Z.eqb n TextQueryMethod_name = Some s')
      <-> 0 <= n <= 7)
  /\ ((exists s', lookup Z.eqb n ListQueryMethod_name = Some s')
      <-> n = 0)
  /\ ((exists s', lookup Z.eqb n TimestampQueryMethod_name = Some s')
      <-> 0 <= n <= 4).
Proof.
  split; [split; [by_name n | by_value s]|].
  split; [split; [by_name n | by_value s]|].
  split; [split; [by_name n | by_value s]|].
  split; [split|].
  { intros [s' H]. revert H. named n. }
  { intros [H1 H2].
    assert (H : n = 0 \/ n = 1 \/ n = 2 \/ n = 3 \/ n = 4 \/ n = 5
                \/ n = 6 \/ n = 7) by lia.
    repeat (destruct H as [-> | H]; [eexists; reflexivity|]).
    subst n. eexists; reflexivity. }
  split; [split|split].
  { intros [s' H]. revert H. named n. }
  { intros ->. eexists; reflexivity. }
  { intros [s' H]. revert H. named n. }
  { intros [H1 H2].
    assert (H : n = 0 \/ n = 1 \/ n = 2 \/ n = 3 \/ n = 4) by lia.
    repeat (destruct H as [-> | H]; [eexists; reflexivity|]).
    subst n. eexists; reflexivity. }
Qed.

End EnumMaps.

(** * The generated descriptor and messages *)

Section Descriptor.

Import object.

Context {runtime : Runtime}.

(** Once the guard has fired, a call returns the data as it is and changes
    nothing. *)
Lemma rawDescGZIP_done (g : Globals) :
  done (file_zitadel_object_proto_rawDescOnce g) = true ->
  file_zitadel_object_proto_rawDescGZIP g
  = (file_zitadel_object_proto_rawDescData g, g).
Proof.
  intros H. unfold file_zitadel_object_proto_rawDescGZIP. now rewrite H.
Qed.

Lemma descriptors_done (n : nat) (g : Globals) :
  done (file_zitadel_object_proto_rawDescOnce g) = true ->
  descriptors n g = (repeat (file_zitadel_object_proto_rawDescData g) n, g).
Proof.
  intros H. induction n as [|n IH]; [reflexivity|].
  cbn [descriptors repeat]. now rewrite (rawDescGZIP_done g H), IH.
Qed.

(** X9. While the guard of the raw descriptor has not fired, any number of
    calls of [file_zitadel_object_proto_rawDescGZIP], one at least, all
    return the descriptor data compressed once; the data is compressed by
    the first call only and kept, the guard has fired afterwards, and no
    other variable of the file changes. From then on each of the six
    [Descriptor] and [EnumDescriptor] methods returns that same compressed
    data, with the index of its type, and changes nothing. *)
Theorem rawDescGZIP_compresses_once (n : nat) (g : Globals) :
  done (file_zitadel_object_proto_rawDescOnce g) = false ->
  let z := CompressGZIP (file_zitadel_object_proto_rawDescData g) in
  let g' := snd (descriptors (S n) g) in
  fst (descriptors (S n) g) = repeat z (S n)
  /\ file_zitadel_object_proto_rawDescData g' = z
  /\ file_zitadel_object_proto_rawDescOnce g' = fired
  /\ File_zitadel_object_proto g' = File_zitadel_object_proto g
  /\ file_zitadel_object_proto_rawDesc g'
     = file_zitadel_object_proto_rawDesc g
  /\ file_zitadel_object_proto_enumTypes g'
     = file_zitadel_object_proto_enumTypes g
  /\ file_zitadel_object_proto_msgTypes g'
     = file_zitadel_object_proto_msgTypes g
  /\ file_zitadel_object_proto_goTypes g'
     = file_zitadel_object_proto_goTypes g
  /\ file_zitadel_object_proto_depIdxs g'
     = file_zitadel_object_proto_depIdxs g
  /\ TextQueryMethod_EnumDescriptor g' = ((z, [0%Z]), g')
  /\ ListQueryMethod_EnumDescriptor g' = ((z, [1%Z]), g')
  /\ TimestampQueryMethod_EnumDescriptor g' = ((z, [2%Z]), g')
  /\ ObjectDetails_Descriptor g' = ((z, [0%Z]), g')
  /\ ListQuery_Descriptor g' = ((z, [1%Z]), g')
  /\ ListDetails_Descriptor g' = ((z, [2%Z]), g').
Proof.
  intros H z g'.
  assert (E : exists g1,
             descriptors (S n) g = (repeat z (S n), g1)
             /\ g1 = snd (file_zitadel_object_proto_rawDescGZIP g)).
  { eexists. split; [|reflexivity]. cbn [descriptors].
    destruct (file_zitadel_object_proto_rawDescGZIP g) as [b g1] eqn:E1.
    unfold file_zitadel_object_proto_rawDescGZIP in E1. rewrite H in E1.
    injection E1 as <- <-.
    now rewrite descriptors_done by reflexivity. }
  destruct E as (g1 & E & Hg1). subst g'. rewrite E. cbn [fst snd].
  subst g1. unfold file_zitadel_object_proto_rawDescGZIP. rewrite H.
  cbn. repeat split.
Qed.

(** X10. From the variables as declared, [file_zitadel_object_proto_init]
    returns without a panic: [Build] is given the raw descriptor, the
    counts 3, 3, 0, 0, the seven Go types and the dependency indexes, and
    the message infos with the three exporters installed exactly when
    unsafe access is disabled; afterwards the file descriptor is the one
    [Build] returned, the raw descriptor, the Go types and the dependency
    indexes are nil, and the descriptor data and its guard are untouched,
    so that the compressed descriptor can still be had. Whenever the file
    descriptor is set, [file_zitadel_object_proto_init] does nothing. *)
Theorem proto_init_builds_once (raw : list Byte.byte) :
  let exported :=
    if UnsafeEnabled then file_zitadel_object_proto_msgTypes (declared raw)
    else [ {| Exporter := Some msg0; messageData := 0 |};
           {| Exporter := Some msg1; messageData := 0 |};
           {| Exporter := Some msg2; messageData := 0 |} ] in
  let out :=
    Build
      {| GoPackagePath := PkgPath;
         RawDescriptor := raw;
         NumEnums := 3;
         NumMessages := 3;
         NumExtensions := 0;
         NumServices := 0;
         GoTypes := file_zitadel_object_proto_goTypes (declared raw);
         DependencyIndexes := [6; 6; 6; 3; 3; 3; 3; 0];
         EnumInfos := file_zitadel_object_proto_enumTypes (declared raw);
         MessageInfos := exported |} in
  (exists g,
     file_zitadel_object_proto_init (declared raw) = Returned g
     /\ File_zitadel_object_proto g = out_File out
     /\ file_zitadel_object_proto_enumTypes g = out_EnumInfos out
     /\ file_zitadel_object_proto_msgTypes g = out_MessageInfos out
     /\ file_zitadel_object_proto_rawDesc g = []
     /\ file_zitadel_object_proto_goTypes g = []
     /\ file_zitadel_object_proto_depIdxs g = []
     /\ file_zitadel_object_proto_rawDescData g = raw
     /\ file_zitadel_object_proto_rawDescOnce g = fresh
     /\ fst (file_zitadel_object_proto_rawDescGZIP g) = CompressGZIP raw)
  /\ (forall g,
        File_zitadel_object_proto g <> None ->
        file_zitadel_object_proto_init g = Returned g).
Proof.
  intros exported out. split.
  - unfold file_zitadel_object_proto_init. cbn [declared File_zitadel_object_proto].
    subst out exported. destruct UnsafeEnabled; cbn;
      eexists; (split; [reflexivity|]); repeat split.
  - intros g Hg. unfold file_zitadel_object_proto_init.
    destruct (File_zitadel_object_proto g); [reflexivity | contradiction].
Qed.

End Descriptor.

Lemma rawDescGZIP_compresses_once_witness :
  fst (descriptors (runtime := Sample.runtime) 3
         (object.declared Sample.raw))
  = repeat [Byte.x1f; Byte.x8b; Byte.x0a; Byte.x14; Byte.x7a] 3.
Proof.
  exact (proj1 (@rawDescGZIP_compresses_once Sample.runtime 2
                  (object.declared Sample.raw) eq_refl)).
Defined.

Section Messages.

Import object.

Context {runtime : Runtime}.


End Messages.

(** * The settings client of [v2beta] *)

(** X12. [v2beta.NewClient] passes an error of [NewConnection] on with a
    nil client and constructs no stub. On a connection it constructs the
    settings stub at once, bound to the [ClientConn] of the connection,
    and returns a client that holds both; the stub is the one that the
    [SettingsService] accessor of a fresh registry client on that
    [ClientConn] returns on its first call. With neither connection nor
    error it panics on the nil connection. *)
Theorem v2beta_NewClient_is_eager {dialer : v2beta.Dialer}
    (ctx : Context) (issuer api : string) (scopes : list string)
    (options : list v2beta.ConnectionOption) (w : World) :
  match v2beta.NewConnection ctx issuer api scopes options with
  | (_, Some e) =>
      v2beta.NewClient (stubs := generated) ctx issuer api scopes options w
      = (Returned (None, Some e), w)
  | (Some conn, None) =>
      let cc := v2beta.Connection.ClientConn conn in
      v2beta.NewClient (stubs := generated) ctx issuer api scopes options w
      = (Returned
           (Some {| v2beta.Connection := conn;
                    v2beta.SettingsServiceClient := newStub Settings cc w |},
            None),
         {| next_addr := S (next_addr w);
            trace := trace w ++ [StubConstructed Settings cc (next_addr w)] |})
      /\ fst (fst (access (stubs := generated) Settings (newClient cc) w))
         = Returned (Some (newStub Settings cc w))
  | (None, None) =>
      v2beta.NewClient (stubs := generated) ctx issuer api scopes options w
      = (Panicked, w)
  end.
Proof.
  unfold v2beta.NewClient.
  destruct (v2beta.NewConnection ctx issuer api scopes options)
    as [[conn|] [e|]]; try reflexivity.
  split; [reflexivity|].
  now rewrite (access_generated_first Settings (newClient _) w
                 (newClient_fresh _ Settings)).
Qed.

(** * The accessors and any stub library *)

(** X13. Whatever the constructor of the stub does, return or panic, an
    accessor call leaves the connection and the slot and guard of every
    other service as they were, and the guard of its own service has
    fired when the call is over. *)
Theorem accessor_touches_own_slot_only {stubs : StubLibrary}
    (s : Service) (c : Client) (w : World) :
  let c' := snd (fst (access s c w)) in
  connection c' = connection c
  /\ done (guard s c') = true
  /\ forall s', s' <> s ->
       slot s' c' = slot s' c /\ guard s' c' = guard s' c.
Proof.
  intros c'. destruct (access_frame s c w) as [Hc Hf].
  split; [exact Hc|]. split; [apply access_fires | exact Hf].
Qed.
